(** * rSwag spaces: tenant resolution, theming, cart scoping

    A shallow embedding of the multi-tenant "spaces" layer of the rSwag
    storefront front end:

    - [middleware], the tenant resolver run on every request;
    - [themeToCSS], [getCartKey] and [getSpaceIdFromCookie], the helpers
      that the pages import from [@/lib/spaces];
    - [getProducts], the catalog request of the products page;
    - [CheckoutSuccessPage_effect] and [fetchCart], the two places that
      clear the cart id kept in [localStorage].

    JavaScript strings are modelled as [string]: a character is one code
    unit, restricted to the range 0..255 (the range of an HTTP header
    value).  [undefined]/[null] are modelled with [option], a computation
    that may throw with [completion].  The browser's [localStorage] is a
    finite map from keys to values. *)

From Stdlib Require Import Ascii String NArith List Bool.
From stdpp Require Import gmap strings list fin_maps.

Local Open Scope string_scope.

(** Let [simpl] compute the concatenation of string literals. *)
#[local] Arguments String.append !s1 s2 /.

(** ** JavaScript strings *)

Module JsString.

(** Truthiness of a string: only the empty string is falsy. *)
Definition truthy (s : string) : bool :=
  match s with
  | EmptyString => false
  | String _ _ => true
  end.

(** Truthiness of a possibly undefined/null string. *)
Definition truthy_opt (o : option string) : bool :=
  match o with
  | None => false
  | Some s => truthy s
  end.

(** [a || b] on strings. *)
Definition or_else (o : option string) (d : string) : string :=
  match o with
  | Some s => if truthy s then s else d
  | None => d
  end.

(** The rest of [s] after the prefix [p], when [s] starts with [p]. *)
Fixpoint stripPrefix (p s : string) : option string :=
  match p with
  | EmptyString => Some s
  | String a p' =>
      match s with
      | EmptyString => None
      | String b s' => if Ascii.eqb a b then stripPrefix p' s' else None
      end
  end.

(** [s.startsWith(p)] *)
Definition startsWith (p s : string) : bool :=
  match stripPrefix p s with
  | Some _ => true
  | None => false
  end.

(** [s.endsWith(suf)]: some tail of [s] is [suf]. *)
Fixpoint endsWith (suf s : string) : bool :=
  if String.eqb s suf then true
  else match s with
       | EmptyString => false
       | String _ s' => endsWith suf s'
       end.

(** [s.replace(pat, repl)] for a string pattern: only the first
    (leftmost) occurrence of [pat] is replaced.  [repl] is taken
    literally (no [$] patterns; the source only replaces by the empty
    string). *)
Fixpoint replace (pat repl s : string) : string :=
  match stripPrefix pat s with
  | Some rest => repl +:+ rest
  | None =>
      match s with
      | EmptyString => EmptyString
      | String c s' => String c (replace pat repl s')
      end
  end.

(** [s.split(sep)] for a one-character separator.  The result is never
    the empty array. *)
Fixpoint split (sep : ascii) (s : string) : list string :=
  match s with
  | EmptyString => [EmptyString]
  | String c s' =>
      if Ascii.eqb c sep then EmptyString :: split sep s'
      else match split sep s' with
           | [] => [String c EmptyString]
           | piece :: pieces => String c piece :: pieces
           end
  end.

(** Lower-casing of one code unit in 0..255: A-Z, and the Latin-1
    capitals U+00C0..U+00DE except the multiplication sign U+00D7. *)
Definition toLowerChar (c : ascii) : ascii :=
  let n := N_of_ascii c in
  if ((65 <=? n) && (n <=? 90) || (192 <=? n) && (n <=? 222) && negb (n =? 215))%N
  then ascii_of_N (n + 32)
  else c.

(** [s.toLowerCase()] *)
Fixpoint toLowerCase (s : string) : string :=
  match s with
  | EmptyString => EmptyString
  | String c s' => String (toLowerChar c) (toLowerCase s')
  end.

(** [s.includes(c)] for a single character. *)
Fixpoint includesChar (c : ascii) (s : string) : bool :=
  match s with
  | EmptyString => false
  | String d s' => Ascii.eqb c d || includesChar c s'
  end.

(** [arr.join(sep)] *)
Fixpoint join (sep : string) (l : list string) : string :=
  match l with
  | [] => EmptyString
  | [x] => x
  | x :: rest => x +:+ sep +:+ join sep rest
  end.

End JsString.

(** ** Completions: a JavaScript computation returns or throws *)

Inductive JsError : Type :=
  | TypeError (msg : string)
  | SyntaxError (msg : string).

Inductive completion (A : Type) : Type :=
  | Normal (a : A)
  | Throw (e : JsError).

Arguments Normal {A} a.
Arguments Throw {A} e.

#[export] Instance completion_ret : MRet completion := fun A a => Normal a.

#[export] Instance completion_bind : MBind completion :=
  fun A B k c =>
    match c with
    | Normal a => k a
    | Throw e => Throw e
    end.

(** Calling a string method on an array element that may be [undefined]. *)
Definition method_on (o : option string) (name : string)
  (f : string -> string) : completion string :=
  match o with
  | Some s => Normal (f s)
  | None =>
      Throw (TypeError ("Cannot read properties of undefined (reading '"
                        +:+ name +:+ "')"))
  end.

(** ** Tenant resolver: frontend/middleware.ts *)

Module Middleware.

(** [URLSearchParams]: an ordered list of name/value pairs. *)
Definition URLSearchParams := list (string * string).

(** [searchParams.get(name)]: the first value with that name, or null. *)
Fixpoint searchParams_get (name : string) (ps : URLSearchParams)
  : option string :=
  match ps with
  | [] => None
  | (n, v) :: rest => if String.eqb n name then Some v
                      else searchParams_get name rest
  end.

(** The parts of a [NextRequest] that the middleware reads: the [host]
    header ([None] when the header is absent) and the parsed query of
    [request.url] (always a valid absolute URL on a [NextRequest]). *)
Record NextRequest : Type := {
  headers_host : option string;
  url_searchParams : URLSearchParams;
}.

Inductive SameSite : Type := Lax | Strict | NoneSite.

Record Cookie : Type := {
  cookie_name : string;
  cookie_value : string;
  cookie_path : string;
  cookie_sameSite : SameSite;
  cookie_httpOnly : bool;
  cookie_maxAge : N;
}.

Record NextResponse : Type := {
  response_cookies : list Cookie;
}.

(** [NextResponse.next()] *)
Definition NextResponse_next : NextResponse :=
  {| response_cookies := [] |}.

(** [response.cookies.set(...)]: replaces a cookie of the same name. *)
Definition cookies_set (c : Cookie) (r : NextResponse) : NextResponse :=
  {| response_cookies :=
       List.filter (fun c' => negb (String.eqb (cookie_name c') (cookie_name c)))
              (response_cookies r) ++ [c] |}.

(** [response.cookies.get(name)?.value] *)
Definition cookies_get (name : string) (r : NextResponse) : option string :=
  match List.filter (fun c => String.eqb (cookie_name c) name) (response_cookies r) with
  | [] => None
  | c :: _ => Some (cookie_value c)
  end.

Definition ROOT_SUFFIX : string := ".rswag.online".

(** The first two statements: [request.headers.get("host") || ""], then
    [host.split(":")[0].toLowerCase()]. *)
Definition hostnameOf (request : NextRequest) : completion string :=
  let host := JsString.or_else (headers_host request) "" in
  method_on (head (JsString.split ":" host)) "toLowerCase"
            JsString.toLowerCase.

(** The local-development hosts. *)
Definition isLocalHost (hostname : string) : bool :=
  String.eqb hostname "localhost" || String.eqb hostname "127.0.0.1".

(** The statements that compute [spaceId] from [hostname] and the query
    of [request.url]. *)
Definition spaceIdFor (hostname : string) (query : URLSearchParams) : string :=
  let spaceId := "default" in
  let spaceId :=
    if JsString.endsWith ROOT_SUFFIX hostname
    then JsString.replace ROOT_SUFFIX "" hostname
    else spaceId in
  if isLocalHost hostname then
    let spaceParam := searchParams_get "_space" query in
    match spaceParam with
    | Some v => if JsString.truthy v then v else spaceId
    | None => spaceId
    end
  else spaceId.

Definition spaceCookie (spaceId : string) : Cookie :=
  {| cookie_name := "space_id";
     cookie_value := spaceId;
     cookie_path := "/";
     cookie_sameSite := Lax;
     cookie_httpOnly := false;
     cookie_maxAge := 86400 |}.

Definition middleware (request : NextRequest) : completion NextResponse :=
  hostname ← hostnameOf request;
  let spaceId := spaceIdFor hostname (url_searchParams request) in
  let response := NextResponse_next in
  Normal (cookies_set (spaceCookie spaceId) response).

(** The tenant id a request resolves to: the value of the [space_id]
    cookie on the response, when the middleware returns. *)
Definition resolvedSpaceId (request : NextRequest) : completion (option string) :=
  response ← middleware request;
  Normal (cookies_get "space_id" response).

End Middleware.

(** ** Space helpers: frontend/lib/spaces.ts *)

Module Spaces.

Import JsString.

(** [keyof SpaceTheme] *)
Inductive ThemeKey : Type :=
  | primary | primary_foreground
  | secondary | secondary_foreground
  | background | foreground
  | card | card_foreground
  | popover | popover_foreground
  | muted | muted_foreground
  | accent | accent_foreground
  | destructive | destructive_foreground
  | border | input | ring.

#[export] Instance ThemeKey_eq_dec : EqDecision ThemeKey.
Proof. solve_decision. Defined.

(** [SpaceTheme].  The object is decoded from JSON, so a field may be
    missing at run time: [None] stands for [undefined]/[null]. *)
Record SpaceTheme : Type := {
  theme_primary : option string;
  theme_primary_foreground : option string;
  theme_secondary : option string;
  theme_secondary_foreground : option string;
  theme_background : option string;
  theme_foreground : option string;
  theme_card : option string;
  theme_card_foreground : option string;
  theme_popover : option string;
  theme_popover_foreground : option string;
  theme_muted : option string;
  theme_muted_foreground : option string;
  theme_accent : option string;
  theme_accent_foreground : option string;
  theme_destructive : option string;
  theme_destructive_foreground : option string;
  theme_border : option string;
  theme_input : option string;
  theme_ring : option string;
}.

(** [theme[key]] *)
Definition theme_get (theme : SpaceTheme) (key : ThemeKey) : option string :=
  match key with
  | primary => theme_primary theme
  | primary_foreground => theme_primary_foreground theme
  | secondary => theme_secondary theme
  | secondary_foreground => theme_secondary_foreground theme
  | background => theme_background theme
  | foreground => theme_foreground theme
  | card => theme_card theme
  | card_foreground => theme_card_foreground theme
  | popover => theme_popover theme
  | popover_foreground => theme_popover_foreground theme
  | muted => theme_muted theme
  | muted_foreground => theme_muted_foreground theme
  | accent => theme_accent theme
  | accent_foreground => theme_accent_foreground theme
  | destructive => theme_destructive theme
  | destructive_foreground => theme_destructive_foreground theme
  | border => theme_border theme
  | input => theme_input theme
  | ring => theme_ring theme
  end.

(** [Object.entries(THEME_VAR_MAP)], in insertion order. *)
Definition THEME_VAR_MAP : list (ThemeKey * string) :=
  [ (primary, "--primary");
    (primary_foreground, "--primary-foreground");
    (secondary, "--secondary");
    (secondary_foreground, "--secondary-foreground");
    (background, "--background");
    (foreground, "--foreground");
    (card, "--card");
    (card_foreground, "--card-foreground");
    (popover, "--popover");
    (popover_foreground, "--popover-foreground");
    (muted, "--muted");
    (muted_foreground, "--muted-foreground");
    (accent, "--accent");
    (accent_foreground, "--accent-foreground");
    (destructive, "--destructive");
    (destructive_foreground, "--destructive-foreground");
    (border, "--border");
    (input, "--input");
    (ring, "--ring") ].

(** A value interpolated in a template literal. *)
Definition template (o : option string) : string :=
  match o with
  | Some s => s
  | None => "undefined"
  end.

(** The test of the [filter] callback: [theme[key]] is truthy, that is,
    the role has a non-empty value. *)
Definition present (theme : SpaceTheme) (key : ThemeKey) : bool :=
  truthy_opt (theme_get theme key).

(** The [map] callback: one style-variable assignment. *)
Definition assignment (theme : SpaceTheme) (entry : ThemeKey * string)
  : string :=
  let '(key, cssVar) := entry in
  cssVar +:+ ": " +:+ template (theme_get theme key) +:+ ";".

(** The array that [themeToCSS] joins: the entries kept by [filter],
    rendered by [map]. *)
Definition themeAssignments (theme : SpaceTheme) : list string :=
  List.map (assignment theme)
    (List.filter (fun '(key, _) => present theme key) THEME_VAR_MAP).

(** The separator: a line feed and four spaces. *)
Definition CSS_SEP : string := String "010"%char "    ".

Definition themeToCSS (theme : SpaceTheme) : string :=
  join CSS_SEP (themeAssignments theme).

(** The style variable of a role, read off [THEME_VAR_MAP]. *)
Definition cssVarOf (key : ThemeKey) : string :=
  match List.find (fun entry => bool_decide (fst entry = key)) THEME_VAR_MAP with
  | Some (_, cssVar) => cssVar
  | None => ""
  end.



(** [getCartKey(spaceId?)]: [None] is a call without argument. *)
Definition getCartKey (spaceId : option string) : string :=
  match spaceId with
  | None => "cart_id"
  | Some s =>
      if negb (truthy s) || String.eqb s "default" then "cart_id"
      else "cart_id_" +:+ s
  end.

(** [\s] on code units 0..255: TAB, LF, VT, FF, CR, space, NBSP. *)
Definition isWhiteSpace (c : ascii) : bool :=
  let n := N_of_ascii c in
  ((9 <=? n) && (n <=? 13) || (n =? 32) || (n =? 160))%N.

(** A greedy run of white space. *)
Fixpoint skipWhiteSpace (s : string) : string :=
  match s with
  | EmptyString => EmptyString
  | String c s' => if isWhiteSpace c then skipWhiteSpace s' else s
  end.

(** The capture group: the longest run of characters other than [;]. *)
Fixpoint untilSemicolon (s : string) : string :=
  match s with
  | EmptyString => EmptyString
  | String c s' => if Ascii.eqb c ";" then EmptyString
                   else String c (untilSemicolon s')
  end.

(** The alternative that starts with [;]: a semicolon, white space,
    the literal [space_id=] and the capture group, tried at every
    position from left to right; the result is the capture group. *)
Fixpoint matchAfterSemicolon (s : string) : option string :=
  match s with
  | EmptyString => None
  | String c s' =>
      match (if Ascii.eqb c ";"
             then stripPrefix "space_id=" (skipWhiteSpace s')
             else None) with
      | Some rest => Some (untilSemicolon rest)
      | None => matchAfterSemicolon s'
      end
  end.

(** Group 1 of the match of the cookie pattern on [document.cookie]:
    [space_id=] at the start of the string, or after a semicolon and
    white space.  At position 0 the start-of-string alternative is
    tried first. *)
Definition matchSpaceId (cookie : string) : option string :=
  match stripPrefix "space_id=" cookie with
  | Some rest => Some (untilSemicolon rest)
  | None => matchAfterSemicolon cookie
  end.

Record Document : Type := {
  document_cookie : string;
}.

(** [getSpaceIdFromCookie()]: [None] when [document] is undefined. *)
Definition getSpaceIdFromCookie (document : option Document) : string :=
  match document with
  | None => "default"
  | Some d =>
      match matchSpaceId (document_cookie d) with
      | Some group1 => group1
      | None => "default"
      end
  end.

(** The theme with no role set. *)
Definition emptyTheme : SpaceTheme :=
  {| theme_primary := None; theme_primary_foreground := None;
     theme_secondary := None; theme_secondary_foreground := None;
     theme_background := None; theme_foreground := None;
     theme_card := None; theme_card_foreground := None;
     theme_popover := None; theme_popover_foreground := None;
     theme_muted := None; theme_muted_foreground := None;
     theme_accent := None; theme_accent_foreground := None;
     theme_destructive := None; theme_destructive_foreground := None;
     theme_border := None; theme_input := None; theme_ring := None |}.

(** A palette with two roles, as a space's configuration would give it. *)
Definition twoRoleTheme : SpaceTheme :=
  {| theme_primary := Some "195 80% 45%"; theme_primary_foreground := None;
     theme_secondary := None; theme_secondary_foreground := None;
     theme_background := Some "0 0% 100%"; theme_foreground := None;
     theme_card := None; theme_card_foreground := None;
     theme_popover := None; theme_popover_foreground := None;
     theme_muted := None; theme_muted_foreground := None;
     theme_accent := None; theme_accent_foreground := None;
     theme_destructive := None; theme_destructive_foreground := None;
     theme_border := None; theme_input := Some ""; theme_ring := None |}.

End Spaces.

(** ** The fetch API, as far as the pages use it *)

Inductive FetchResult (A : Type) : Type :=
  | NetworkError                          (* [fetch] rejects *)
  | HttpResponse (ok : bool) (json : option A).
                                          (* [None]: [res.json()] rejects *)

Arguments NetworkError {A}.
Arguments HttpResponse {A} ok json.

(** [process.env.NEXT_PUBLIC_API_URL || "http://localhost:8000/api"] *)
Definition API_URL_of (NEXT_PUBLIC_API_URL : option string) : string :=
  JsString.or_else NEXT_PUBLIC_API_URL "http://localhost:8000/api".

(** ** Product listing: frontend/app/products/page.tsx *)

Module Products.

Import JsString.

Definition URLSearchParams := list (string * string).

(** [params.set(name, value)]: the first pair named [name] takes the
    value and later ones are removed; without one the pair is appended. *)
Fixpoint params_set (name value : string) (ps : URLSearchParams)
  : URLSearchParams :=
  match ps with
  | [] => [(name, value)]
  | (n, v) :: rest =>
      if String.eqb n name
      then (n, value) :: List.filter (fun p => negb (String.eqb (fst p) name)) rest
      else (n, v) :: params_set name value rest
  end.

(** [params.has(name)] *)
Definition params_has (name : string) (ps : URLSearchParams) : bool :=
  existsb (fun p => String.eqb (fst p) name) ps.

(** UTF-8 bytes of one code unit in 0..255. *)
Definition utf8Bytes (c : ascii) : list N :=
  let n := N_of_ascii c in
  if (n <? 128)%N then [n] else [(192 + n / 64)%N; (128 + n mod 64)%N].

Definition hexDigit (n : N) : ascii :=
  if (n <? 10)%N then ascii_of_N (48 + n) else ascii_of_N (55 + n).

(** Bytes left as they are by the urlencoded serializer:
    ASCII alphanumerics and [*], [-], [.], [_]. *)
Definition urlencodedSafe (b : N) : bool :=
  ((48 <=? b) && (b <=? 57) || (65 <=? b) && (b <=? 90)
   || (97 <=? b) && (b <=? 122)
   || (b =? 42) || (b =? 45) || (b =? 46) || (b =? 95))%N.

Definition urlencodeByte (b : N) : string :=
  if (b =? 32)%N then "+"
  else if urlencodedSafe b then String (ascii_of_N b) ""
  else String "%" (String (hexDigit (b / 16)) (String (hexDigit (b mod 16)) "")).

(** The application/x-www-form-urlencoded serialization of a string. *)
Fixpoint urlencode (s : string) : string :=
  match s with
  | EmptyString => EmptyString
  | String c s' =>
      join "" (List.map urlencodeByte (utf8Bytes c)) +:+ urlencode s'
  end.

(** Every character of [s] is one the serializer leaves as it is. *)
Fixpoint urlSafe (s : string) : bool :=
  match s with
  | EmptyString => true
  | String c s' => urlencodedSafe (N_of_ascii c) && urlSafe s'
  end.

(** [params.toString()] *)
Definition params_toString (ps : URLSearchParams) : string :=
  join "&" (List.map (fun '(n, v) => urlencode n +:+ "=" +:+ urlencode v) ps).

(** The query that [getProducts] builds. *)
Definition getProducts_params (spaceId : string) : URLSearchParams :=
  let params : URLSearchParams := [] in
  if truthy spaceId && negb (String.eqb spaceId "default")
  then params_set "space" spaceId params
  else params.

(** The URL that [getProducts] fetches. *)
Definition getProducts_url (API_URL spaceId : string) : string :=
  let params := getProducts_params spaceId in
  API_URL +:+ "/products"
    +:+ (if truthy (params_toString params)
         then "?" +:+ params_toString params
         else "").

Section GetProducts.

Context {Product : Type}.
Variable fetch : string -> FetchResult (list Product).

(** [getProducts(spaceId)].  [return res.json()] is not awaited inside
    the [try], so a rejected body parse escapes the [catch]. *)
Definition getProducts (API_URL spaceId : string)
  : completion (list Product) :=
  match fetch (getProducts_url API_URL spaceId) with
  | NetworkError => Normal []
  | HttpResponse false _ => Normal []
  | HttpResponse true (Some products) => Normal products
  | HttpResponse true None =>
      Throw (SyntaxError "Unexpected token in JSON")
  end.

(** What the caller of [getProducts] gets for one answer of the backend:
    the products of an OK answer, and the empty list when the request
    fails or is refused. *)
Definition productsOf (answer : FetchResult (list Product))
  : completion (list Product) :=
  match answer with
  | HttpResponse true (Some products) => Normal products
  | HttpResponse true None => Throw (SyntaxError "Unexpected token in JSON")
  | HttpResponse false _ => Normal []
  | NetworkError => Normal []
  end.

End GetProducts.

End Products.

(** ** Cart storage: frontend/app/cart/page.tsx and
       frontend/app/checkout/success/page.tsx *)

Module CartPages.

Import JsString Spaces.

(** The browser state the two pages touch. *)
Record Browser : Type := {
  document : option Document;
  localStorage : gmap string string;
}.

(** [localStorage.removeItem(key)] *)
Definition removeItem (key : string) (b : Browser) : Browser :=
  {| document := document b;
     localStorage := delete key (localStorage b) |}.

(** [localStorage.getItem(key)] *)
Definition getItem (key : string) (b : Browser) : option string :=
  localStorage b !! key.

(** The effect run by [CheckoutSuccessPage] once mounted. *)
Definition CheckoutSuccessPage_effect (b : Browser) : Browser :=
  let cartKey := getCartKey (Some (getSpaceIdFromCookie (document b))) in
  removeItem cartKey b.

Section CartPage.

Context {Cart : Type}.
Variable fetch : string -> FetchResult Cart.
Variable API_URL : string.

(** The React state of [CartPage] that [fetchCart] writes. *)
Record CartPageState : Type := {
  cart : option Cart;
  loading : bool;
}.

Definition setCart (c : option Cart) (st : CartPageState) : CartPageState :=
  {| cart := c; loading := loading st |}.

Definition setLoading (l : bool) (st : CartPageState) : CartPageState :=
  {| cart := cart st; loading := l |}.

Definition fetchCart (b : Browser) (st : CartPageState)
  : Browser * CartPageState :=
  let cartKey := getCartKey (Some (getSpaceIdFromCookie (document b))) in
  let cartId := getItem cartKey b in
  let '(b, st) :=
    match cartId with
    | Some id =>
        if truthy id then
          match fetch (API_URL +:+ "/cart/" +:+ id) with
          | HttpResponse true (Some data) => (b, setCart (Some data) st)
          | HttpResponse true None => (b, setCart None st)
          | HttpResponse false _ =>
              (* Cart expired or deleted *)
              (removeItem cartKey b, setCart None st)
          | NetworkError => (b, setCart None st)
          end
        else (b, st)
    | None => (b, st)
    end in
  (b, setLoading false st).

End CartPage.

End CartPages.

(** ** String methods used by the remaining pages *)

Module JsStringExt.

Import JsString Spaces.

(** [s.includes(pat)] *)
Fixpoint includes (pat s : string) : bool :=
  match stripPrefix pat s with
  | Some _ => true
  | None =>
      match s with
      | EmptyString => false
      | String _ s' => includes pat s'
      end
  end.

(** [s.trimEnd()]: white space is the set matched by [\s]. *)
Fixpoint trimEnd (s : string) : string :=
  match s with
  | EmptyString => EmptyString
  | String c s' =>
      match trimEnd s' with
      | EmptyString => if isWhiteSpace c then EmptyString else String c EmptyString
      | rest => String c rest
      end
  end.

(** [s.trim()] *)
Definition trim (s : string) : string := trimEnd (skipWhiteSpace s).

(** Every code unit of [s] satisfies [p]. *)
Fixpoint allChars (p : ascii -> bool) (s : string) : bool :=
  match s with
  | EmptyString => true
  | String c s' => p c && allChars p s'
  end.

End JsStringExt.

(** ** The format of [document.cookie] *)

Module DocumentCookie.

Import JsString Spaces.

(** The cookies visible to a page, in the order the browser lists them. *)
Definition CookieJar := list (string * string).

(** The string the browser returns for [document.cookie]: the pairs
    [name=value], separated by a semicolon and a space. *)
Definition cookieString (jar : CookieJar) : string :=
  join "; " (List.map (fun '(name, value) => name +:+ "=" +:+ value) jar).

(** The value of the first cookie called [name]. *)
Fixpoint firstCookie (name : string) (jar : CookieJar) : option string :=
  match jar with
  | [] => None
  | (n, v) :: rest => if String.eqb n name then Some v else firstCookie name rest
  end.

(** A pair the browser can list: the name has no [;] and no [=] and does
    not begin with white space, the value has no [;]. *)
Definition cookiePairOk (pair : string * string) : bool :=
  let '(name, value) := pair in
  negb (includesChar ";" name) && negb (includesChar "=" name)
  && negb (match name with
           | EmptyString => false
           | String c _ => isWhiteSpace c
           end)
  && negb (includesChar ";" value).

End DocumentCookie.

(** ** Product page: the page of one product, with its add-to-cart flow *)

Module ProductPage.

Import JsString JsStringExt Spaces CartPages.

Record MockupType : Type := {
  mockup_type : string;
  mockup_label : string;
}.

Definition MOCKUP_TYPES : list MockupType :=
  [ {| mockup_type := "shirt"; mockup_label := "T-Shirt" |};
    {| mockup_type := "sticker"; mockup_label := "Sticker" |};
    {| mockup_type := "print"; mockup_label := "Art Print" |} ].

Definition getMockupType (productType : string) : string :=
  if includes "shirt" productType || includes "tee" productType
     || includes "hoodie" productType then "shirt"
  else if includes "sticker" productType then "sticker"
  else if includes "print" productType then "print"
  else "shirt".

(** The quantity selector.  The quantity is a JavaScript number holding
    an integer; it is modelled as an integer. *)
Definition initialQuantity : Z := 1.

(** [setQuantity(Math.max(1, quantity - 1))] *)
Definition decrementQuantity (quantity : Z) : Z := Z.max 1 (quantity - 1).

(** [setQuantity(quantity + 1)] *)
Definition incrementQuantity (quantity : Z) : Z := (quantity + 1)%Z.

Inductive QuantityClick : Type := ClickMinus | ClickPlus.

Definition clickQuantity (quantity : Z) (click : QuantityClick) : Z :=
  match click with
  | ClickMinus => decrementQuantity quantity
  | ClickPlus => incrementQuantity quantity
  end.

(** The quantity after a sequence of clicks on the two buttons. *)
Definition quantityAfter (clicks : list QuantityClick) : Z :=
  fold_left clickQuantity clicks initialQuantity.

Inductive Method : Type := GET | POST.

(** [localStorage.setItem(key, value)] *)
Definition setItem (key value : string) (b : Browser) : Browser :=
  {| document := document b;
     localStorage := <[ key := value ]> (localStorage b) |}.

(** [data.id] of a parsed body: a string, [null], or [undefined] when
    the body has no [id]. *)
Inductive JsonId : Type :=
  | IdString (id : string)
  | IdNull
  | IdUndefined.

(** The text that [localStorage.setItem] stores for a value. *)
Definition jsonIdText (v : JsonId) : string :=
  match v with
  | IdString id => id
  | IdNull => "null"
  | IdUndefined => "undefined"
  end.

(** The value as a [string | null] result: [None] stands for [null] and
    for [undefined]. *)
Definition jsonIdResult (v : JsonId) : option string :=
  match v with
  | IdString id => Some id
  | IdNull => None
  | IdUndefined => None
  end.

Section GetOrCreateCart.

Context {CartJson : Type}.
(** [data.id] of the body of the cart-creation response. *)
Variable json_id : CartJson -> JsonId.
Variable fetch : Method -> string -> FetchResult CartJson.
Variable API_URL : string.

(** [getOrCreateCart()]: the storage afterwards and the returned id
    ([None] for [null] and [undefined]). *)
Definition getOrCreateCart (b : Browser) : Browser * option string :=
  let cartId := getItem (getCartKey (Some (getSpaceIdFromCookie (document b)))) b in
  let reuse :=
    match cartId with
    | Some id =>
        if truthy id then
          match fetch GET (API_URL +:+ "/cart/" +:+ id) with
          | HttpResponse true _ => true
          | HttpResponse false _ => false
          | NetworkError => false (* cart expired *)
          end
        else false
    | None => false
    end in
  if reuse then (b, cartId)
  else
    match fetch POST (API_URL +:+ "/cart") with
    | HttpResponse true (Some data) =>
        let cartId := json_id data in
        (setItem (getCartKey (Some (getSpaceIdFromCookie (document b))))
                 (jsonIdText cartId) b,
         jsonIdResult cartId)
    | HttpResponse true None => (b, None)
    | HttpResponse false _ => (b, None)
    | NetworkError => (b, None)
    end.

End GetOrCreateCart.

End ProductPage.

(** ** Design page: the tags sent with a generation request *)

Module DesignPage.

Import JsString JsStringExt.

(** [tags.split(",").map((t) => t.trim()).filter(Boolean)] *)
Definition parseTags (tags : string) : list string :=
  List.filter truthy (List.map trim (split "," tags)).

(** A tag as the request carries it: not empty, without comma, and
    without white space at either end. *)
Definition tagOk (tag : string) : Prop :=
  tag <> "" /\ includesChar "," tag = false /\ trim tag = tag.

End DesignPage.

(** ** Upload page: the design name proposed for a chosen file *)

Module UploadPage.

Import JsString.

(** Replacing the match of a dot, one or more characters other than a
    dot, and the end of the string, by the empty string: the first
    position where the rest of the name is such an extension. *)
Fixpoint stripExtension (name : string) : string :=
  match name with
  | EmptyString => EmptyString
  | String c rest =>
      if Ascii.eqb c "." && truthy rest && negb (includesChar "." rest)
      then EmptyString
      else String c (stripExtension rest)
  end.

(** Replacing every [-] and [_] by a space. *)
Fixpoint dashesToSpaces (s : string) : string :=
  match s with
  | EmptyString => EmptyString
  | String c rest =>
      String (if Ascii.eqb c "-" || Ascii.eqb c "_" then " "%char else c)
             (dashesToSpaces rest)
  end.

(** The constant [baseName] of [handleFile], from [f.name]. *)
Definition baseNameOf (fileName : string) : string :=
  dashesToSpaces (stripExtension fileName).

End UploadPage.

(** ** Root layout: the branding of every page *)

Module Layout.

Import JsString Spaces.

Record SpaceConfig : Type := {
  space_id : string;
  space_name : string;
  space_tagline : string;
  space_description : string;
  space_domain : string;
  space_footer_text : string;
  space_theme : option SpaceTheme;
  space_design_filter : string;
  space_logo_url : option string;
  space_design_tips : list string;
}.

(** [cookieStore.get("space_id")?.value || "default"] *)
Definition serverSpaceId (cookieStore : gmap string string) : string :=
  or_else (cookieStore !! "space_id") "default".

(** What [RootLayout] renders from the space: the brand name, the footer
    text, the logo image (when there is one) and the style element (when
    there is one) with its content. *)
Record LayoutView : Type := {
  view_name : string;
  view_footerText : string;
  view_logo : option string;
  view_style : option string;
}.

Section RootLayout.

Variable fetch : string -> FetchResult SpaceConfig.
Variable API_URL : string.

(** [getSpaceConfig(spaceId)].  [return res.json()] is not awaited inside
    the [try], so a rejected body parse escapes the [catch]. *)
Definition getSpaceConfig (spaceId : string) : completion (option SpaceConfig) :=
  match fetch (API_URL +:+ "/spaces/" +:+ spaceId) with
  | HttpResponse true (Some config) => Normal (Some config)
  | HttpResponse true None => Throw (SyntaxError "Unexpected token in JSON")
  | HttpResponse false _ => Normal None
  | NetworkError => Normal None
  end.

Definition RootLayout (cookieStore : gmap string string) : completion LayoutView :=
  let spaceId := serverSpaceId cookieStore in
  space ← getSpaceConfig spaceId;
  let name := or_else (space_name <$> space) "rSwag" in
  let footerText :=
    or_else (space_footer_text <$> space)
            "rSpace. Infrastructure for the commons." in
  let logoUrl := space ≫= space_logo_url in
  let themeCSS :=
    match space ≫= space_theme with
    | Some theme => themeToCSS theme
    | None => ""
    end in
  Normal {| view_name := name;
            view_footerText := footerText;
            view_logo := if truthy_opt logoUrl then logoUrl else None;
            view_style :=
              if truthy themeCSS
              then Some (":root {" +:+ CSS_SEP +:+ themeCSS
                         +:+ String "010"%char "  }")
              else None |}.

End RootLayout.

End Layout.

(** ** Reading one urlencoded character back *)

Module UrlDecode.

Import JsString Products.

(** The value of a hexadecimal digit in upper case. *)
Definition hexValue (c : ascii) : option N :=
  let n := N_of_ascii c in
  if ((48 <=? n) && (n <=? 57))%N then Some (n - 48)%N
  else if ((65 <=? n) && (n <=? 70))%N then Some (n - 55)%N
  else None.

(** The byte written as a percent sign and two digits at the start of
    [s], and the rest of [s]. *)
Definition percentByte (s : string) : option (N * string) :=
  match s with
  | String "%" (String h (String l rest)) =>
      match hexValue h, hexValue l with
      | Some a, Some b => Some ((16 * a + b)%N, rest)
      | _, _ => None
      end
  | _ => None
  end.

(** The code unit whose serialization starts [s], and the rest of [s]. *)
Definition decodeFirst (s : string) : option (ascii * string) :=
  match s with
  | EmptyString => None
  | String "+" rest => Some (" "%char, rest)
  | String "%" _ =>
      match percentByte s with
      | Some (b, rest) =>
          if (b <? 128)%N then Some (ascii_of_N b, rest)
          else
            match percentByte rest with
            | Some (b2, rest2) =>
                Some (ascii_of_N ((b - 192) * 64 + (b2 - 128)), rest2)
            | None => None
            end
      | None => None
      end
  | String c rest => Some (c, rest)
  end.

(** The characters a serialized value is made of. *)
Definition urlencodedChar (c : ascii) : bool :=
  urlencodedSafe (N_of_ascii c) || Ascii.eqb c "%" || Ascii.eqb c "+".

End UrlDecode.

(** ** Facts about the string operations *)

Section JsStringFacts.

Import JsString.

Lemma stripPrefix_app (p s : string) : stripPrefix p (p +:+ s) = Some s.
Proof.
  induction p as [|a p IH]; simpl; [reflexivity|].
  rewrite Ascii.eqb_refl. exact IH.
Qed.

Lemma stripPrefix_Some (p s rest : string) :
  stripPrefix p s = Some rest -> s = p +:+ rest.
Proof.
  revert s. induction p as [|a p IH]; intros s H; simpl in *.
  - injection H as ->. reflexivity.
  - destruct s as [|b s]; [discriminate|].
    destruct (Ascii.eqb_spec a b) as [->|]; [|discriminate].
    f_equal. apply IH, H.
Qed.

Lemma app_empty_r (s : string) : s +:+ "" = s.
Proof. induction s; simpl; congruence. Qed.

Lemma app_assoc (a b c : string) : (a +:+ b) +:+ c = a +:+ (b +:+ c).
Proof. induction a; simpl; congruence. Qed.

Lemma endsWith_app (suf p : string) : endsWith suf (p +:+ suf) = true.
Proof.
  induction p as [|c p IH]; cbn [endsWith String.append].
  - destruct suf; cbn [endsWith]; rewrite String.eqb_refl; reflexivity.
  - rewrite IH. destruct (String.eqb _ suf); reflexivity.
Qed.

Lemma endsWith_true (suf s : string) :
  endsWith suf s = true -> exists p, s = p +:+ suf.
Proof.
  induction s as [|c s IH]; cbn [endsWith].
  - destruct suf; [exists ""; reflexivity | discriminate].
  - destruct (String.eqb_spec (String c s) suf) as [<-|_].
    + exists "". reflexivity.
    + intros H. destruct (IH H) as [p ->]. exists (String c p). reflexivity.
Qed.

Lemma split_nonempty (sep : ascii) (s : string) :
  exists piece pieces, split sep s = piece :: pieces.
Proof.
  induction s as [|c s [piece [pieces IH]]]; simpl; [eauto|].
  destruct (Ascii.eqb c sep); [eauto|]. rewrite IH. eauto.
Qed.

(** Replacing the first occurrence removes the suffix when the suffix
    does not occur earlier in the string. *)
Lemma replace_suffix_first (pat label : string) :
  (forall l1 l2 : string, label = l1 +:+ l2 -> l2 <> "" ->
     startsWith pat (l2 +:+ pat) = false) ->
  replace pat "" (label +:+ pat) = label.
Proof.
  induction label as [|c label IH]; intros Hfirst.
  - destruct pat as [|a pat]; [reflexivity|].
    change ("" +:+ String a pat) with (String a pat).
    cbn [replace]. replace (stripPrefix (String a pat) (String a pat))
      with (Some "") by (symmetry; rewrite <- (app_empty_r (String a pat)) at 2;
                         apply stripPrefix_app).
    reflexivity.
  - change (String c label +:+ pat) with (String c (label +:+ pat)).
    cbn [replace].
    specialize (Hfirst "" (String c label) eq_refl) as H0.
    unfold startsWith in H0.
    change (String c label +:+ pat) with (String c (label +:+ pat)) in H0.
    destruct (stripPrefix pat (String c (label +:+ pat))).
    + exfalso. specialize (H0 ltac:(discriminate)). discriminate.
    + f_equal. apply IH. intros l1 l2 -> Hne.
      apply (Hfirst (String c l1) l2); [reflexivity | exact Hne].
Qed.

(** A DNS label has no dot, so the dotted suffix cannot start in it. *)
Lemma replace_suffix_label (label : string) :
  includesChar "." label = false ->
  replace ".rswag.online" "" (label +:+ ".rswag.online") = label.
Proof.
  intros Hdot. apply replace_suffix_first. intros l1 l2 -> Hne.
  destruct l2 as [|c l2]; [congruence|].
  assert (Hc : Ascii.eqb "." c = false).
  { clear Hne. induction l1 as [|d l1 IH]; simpl in Hdot.
    - apply orb_false_elim in Hdot. tauto.
    - apply orb_false_elim in Hdot. tauto. }
  unfold startsWith. cbn [stripPrefix String.append]. rewrite Hc. reflexivity.
Qed.

Lemma or_else_empty (s : string) : or_else (Some s) "" = s.
Proof. destruct s; reflexivity. Qed.

Lemma toLowerCase_app (a b : string) :
  toLowerCase (a +:+ b) = toLowerCase a +:+ toLowerCase b.
Proof. induction a as [|c a IH]; simpl; [reflexivity|]. rewrite IH. reflexivity. Qed.

(** Lower-casing neither makes nor removes a dot. *)
Lemma toLowerChar_dot (c : ascii) :
  Ascii.eqb "." (toLowerChar c) = Ascii.eqb "." c.
Proof. destruct c as [[] [] [] [] [] [] [] []]; reflexivity. Qed.

Lemma includesChar_dot_toLowerCase (s : string) :
  includesChar "." (toLowerCase s) = includesChar "." s.
Proof.
  induction s as [|c s IH]; [reflexivity|].
  cbn [toLowerCase includesChar]. rewrite toLowerChar_dot, IH. reflexivity.
Qed.

(** The first piece of a split is the text before the first separator. *)
Lemma split_head_whole (sep : ascii) (s : string) :
  includesChar sep s = false -> head (split sep s) = Some s.
Proof.
  induction s as [|c s IH]; [reflexivity|].
  cbn [includesChar split]. intros H. apply orb_false_elim in H as [Hc Hs].
  rewrite Ascii.eqb_sym, Hc. specialize (IH Hs).
  destruct (split sep s) as [|piece pieces]; [discriminate IH|].
  injection IH as ->. reflexivity.
Qed.

Lemma split_head_before (sep : ascii) (s rest : string) :
  includesChar sep s = false ->
  head (split sep (s +:+ String sep rest)) = Some s.
Proof.
  induction s as [|c s IH]; intros H.
  - cbn [String.append split]. rewrite Ascii.eqb_refl. reflexivity.
  - cbn [includesChar] in H. apply orb_false_elim in H as [Hc Hs].
    cbn [String.append split]. rewrite Ascii.eqb_sym, Hc. specialize (IH Hs).
    destruct (split sep (s +:+ String sep rest)) as [|piece pieces];
      [discriminate IH|].
    injection IH as ->. reflexivity.
Qed.

Lemma includesChar_app (c : ascii) (a b : string) :
  includesChar c (a +:+ b) = includesChar c a || includesChar c b.
Proof.
  induction a as [|d a IH]; [reflexivity|].
  cbn [String.append includesChar]. rewrite IH, orb_assoc. reflexivity.
Qed.

End JsStringFacts.

(** ** The tenant resolver *)

Section MiddlewareFacts.

Import JsString Middleware.

(** The host name depends on the [host] header only. *)
Lemma hostnameOf_host (host : option string) (q1 q2 : URLSearchParams) :
  hostnameOf {| headers_host := host; url_searchParams := q1 |}
  = hostnameOf {| headers_host := host; url_searchParams := q2 |}.
Proof. reflexivity. Qed.

(** Extracting the host name never throws. *)
Lemma hostnameOf_total (request : NextRequest) :
  exists hostname, hostnameOf request = Normal hostname.
Proof.
  unfold hostnameOf.
  destruct (split_nonempty ":" (or_else (headers_host request) ""))
    as [piece [pieces ->]].
  eexists. reflexivity.
Qed.

(** Once the host name is known the middleware returns, and the tenant
    id is the value of the cookie it sets. *)
Lemma resolvedSpaceId_spaceIdFor (request : NextRequest) (hostname : string) :
  hostnameOf request = Normal hostname ->
  middleware request
  = Normal (cookies_set
              (spaceCookie (spaceIdFor hostname (url_searchParams request)))
              NextResponse_next)
  /\ resolvedSpaceId request
     = Normal (Some (spaceIdFor hostname (url_searchParams request))).
Proof.
  intros H. unfold resolvedSpaceId, middleware. rewrite H. split; reflexivity.
Qed.

(** No local-development host is under the root domain. *)
Lemma local_host_not_subdomain (hostname : string) :
  isLocalHost hostname = true -> endsWith ROOT_SUFFIX hostname = false.
Proof.
  unfold isLocalHost. intros H. apply orb_true_iff in H.
  destruct H as [H|H]; apply String.eqb_eq in H; subst; reflexivity.
Qed.

Lemma subdomain_not_local_host (hostname : string) :
  endsWith ROOT_SUFFIX hostname = true -> isLocalHost hostname = false.
Proof.
  intros H. destruct (isLocalHost hostname) eqn:E; [|reflexivity].
  apply local_host_not_subdomain in E. congruence.
Qed.

(** Where the suffix occurs only at the end of the host name, the tenant
    id is what precedes it: this covers every single DNS label. *)
Lemma middleware_subdomain_prefix (request : NextRequest) (label : string) :
  hostnameOf request = Normal (label +:+ ROOT_SUFFIX) ->
  (forall l1 l2 : string, label = l1 +:+ l2 -> l2 <> "" ->
     startsWith ROOT_SUFFIX (l2 +:+ ROOT_SUFFIX) = false) ->
  resolvedSpaceId request = Normal (Some label).
Proof.
  intros Hhost Hfirst.
  destruct (resolvedSpaceId_spaceIdFor _ _ Hhost) as [_ ->].
  unfold spaceIdFor.
  rewrite (subdomain_not_local_host _ (endsWith_app ROOT_SUFFIX label)).
  rewrite endsWith_app, replace_suffix_first by exact Hfirst.
  reflexivity.
Qed.

Lemma middleware_subdomain_label (request : NextRequest) (label : string) :
  hostnameOf request = Normal (label +:+ ROOT_SUFFIX) ->
  includesChar "." label = false ->
  resolvedSpaceId request = Normal (Some label).
Proof.
  intros Hhost Hdot.
  destruct (resolvedSpaceId_spaceIdFor _ _ Hhost) as [_ ->].
  unfold spaceIdFor.
  rewrite (subdomain_not_local_host _ (endsWith_app ROOT_SUFFIX label)).
  rewrite endsWith_app. unfold ROOT_SUFFIX.
  rewrite replace_suffix_label by exact Hdot.
  reflexivity.
Qed.

(** The intended inputs: a single label in any letter case under the
    root domain, with or without a port.  The tenant id is the label in
    lower case. *)
Lemma middleware_label_host (label port : string) (query : URLSearchParams) :
  includesChar ":" label = false ->
  includesChar "." label = false ->
  resolvedSpaceId {| headers_host := Some (label +:+ ".rswag.online");
                     url_searchParams := query |}
    = Normal (Some (toLowerCase label))
  /\ resolvedSpaceId
       {| headers_host := Some ((label +:+ ".rswag.online") +:+ String ":" port);
          url_searchParams := query |}
    = Normal (Some (toLowerCase label)).
Proof.
  intros Hcolon Hdot.
  assert (Hc : includesChar ":" (label +:+ ".rswag.online") = false).
  { rewrite includesChar_app, Hcolon. reflexivity. }
  split; apply middleware_subdomain_label;
    try (rewrite includesChar_dot_toLowerCase; exact Hdot);
    unfold hostnameOf; cbn [headers_host]; rewrite or_else_empty.
  - rewrite (split_head_whole _ _ Hc). cbn [method_on].
    rewrite toLowerCase_app. reflexivity.
  - rewrite (split_head_before _ _ port Hc). cbn [method_on].
    rewrite toLowerCase_app. reflexivity.
Qed.

Example middleware_acme_with_port :
  resolvedSpaceId {| headers_host := Some "Acme.rswag.online:3000";
                     url_searchParams := [("_space", "other")] |}
  = Normal (Some "acme").
Proof. reflexivity. Qed.

(** C1: on a host name that ends with [.rswag.online] the tenant id
    should be what precedes that suffix.  The middleware removes the
    first occurrence of the suffix instead of the final one: for the
    host [shop.rswag.online.evil.rswag.online] the part before the
    suffix is [shop.rswag.online.evil], and the tenant id that the
    middleware stores is [shop.evil.rswag.online]. *)
Theorem middleware_removes_first_suffix_occurrence :
  let request :=
    {| headers_host := Some "shop.rswag.online.evil.rswag.online";
       url_searchParams := [] |} in
  hostnameOf request = Normal ("shop.rswag.online.evil" +:+ ROOT_SUFFIX)
  /\ endsWith ROOT_SUFFIX ("shop.rswag.online.evil" +:+ ROOT_SUFFIX) = true
  /\ resolvedSpaceId request = Normal (Some "shop.evil.rswag.online")
  /\ resolvedSpaceId request <> Normal (Some "shop.rswag.online.evil").
Proof.
  cbv zeta. repeat split; try reflexivity.
  vm_compute. discriminate.
Qed.

(** C3: on a host name that is not a local-development host, the query
    (and so the [_space] parameter, present or not, whatever its value)
    has no influence: two requests with the same [host] header resolve
    to the same tenant id. *)
Theorem override_ignored_on_non_local_host
    (host : option string) (q1 q2 : URLSearchParams) (hostname : string) :
  hostnameOf {| headers_host := host; url_searchParams := q1 |}
    = Normal hostname ->
  isLocalHost hostname = false ->
  exists spaceId : string,
    resolvedSpaceId {| headers_host := host; url_searchParams := q1 |}
      = Normal (Some spaceId)
    /\ resolvedSpaceId {| headers_host := host; url_searchParams := q2 |}
      = Normal (Some spaceId).
Proof.
  intros Hhost Hlocal.
  pose proof Hhost as Hhost2. rewrite (hostnameOf_host host q1 q2) in Hhost2.
  destruct (resolvedSpaceId_spaceIdFor _ _ Hhost) as [_ ->].
  destruct (resolvedSpaceId_spaceIdFor _ _ Hhost2) as [_ ->].
  unfold spaceIdFor. rewrite Hlocal. eexists. split; reflexivity.
Qed.

Lemma override_ignored_on_non_local_host_witness :
  exists spaceId : string,
    resolvedSpaceId {| headers_host := Some "acme.rswag.online:443";
                       url_searchParams := [] |}
      = Normal (Some spaceId)
    /\ resolvedSpaceId {| headers_host := Some "acme.rswag.online:443";
                          url_searchParams := [("_space", "other")] |}
      = Normal (Some spaceId).
Proof.
  apply (override_ignored_on_non_local_host
           (Some "acme.rswag.online:443") [] [("_space", "other")]
           "acme.rswag.online"); reflexivity.
Defined.

(** C4: tenant resolution never throws, whatever the [host] header
    (absent and empty included), and when the host name neither ends
    with the root-domain suffix nor is a local-development host the
    tenant id is the default token. *)
Theorem middleware_total_default (request : NextRequest) :
  (exists (hostname : string) (response : NextResponse) (spaceId : string),
      hostnameOf request = Normal hostname
      /\ middleware request = Normal response
      /\ cookies_get "space_id" response = Some spaceId)
  /\ (forall hostname : string,
        hostnameOf request = Normal hostname ->
        endsWith ROOT_SUFFIX hostname = false ->
        isLocalHost hostname = false ->
        middleware request
          = Normal (cookies_set (spaceCookie "default") NextResponse_next)
        /\ resolvedSpaceId request = Normal (Some "default")).
Proof.
  split.
  - destruct (hostnameOf_total request) as [hostname Hhost].
    destruct (resolvedSpaceId_spaceIdFor _ _ Hhost) as [Hm _].
    exists hostname. eexists. eexists.
    split; [exact Hhost | split; [exact Hm | reflexivity]].
  - intros hostname Hhost Hsuffix Hlocal.
    destruct (resolvedSpaceId_spaceIdFor _ _ Hhost) as [-> ->].
    unfold spaceIdFor. rewrite Hsuffix, Hlocal. split; reflexivity.
Qed.

Lemma middleware_total_default_witness :
  resolvedSpaceId {| headers_host := None;
                     url_searchParams := [("_space", "acme")] |}
  = Normal (Some "default").
Proof.
  apply (proj2 (middleware_total_default
                  {| headers_host := None;
                     url_searchParams := [("_space", "acme")] |}) "");
    reflexivity.
Defined.

(** C5: on a local-development host ([localhost] or [127.0.0.1]) the
    tenant id is the value of the [_space] parameter when it is given
    (so [acme] for [_space=acme]), and the default token when the
    parameter is absent. *)
Theorem local_override (request : NextRequest) (hostname : string) :
  hostnameOf request = Normal hostname ->
  isLocalHost hostname = true ->
  (searchParams_get "_space" (url_searchParams request) = Some "acme" ->
     resolvedSpaceId request = Normal (Some "acme"))
  /\ (forall v : string,
        searchParams_get "_space" (url_searchParams request) = Some v ->
        truthy v = true ->
        resolvedSpaceId request = Normal (Some v))
  /\ (searchParams_get "_space" (url_searchParams request) = None ->
        resolvedSpaceId request = Normal (Some "default")).
Proof.
  intros Hhost Hlocal.
  destruct (resolvedSpaceId_spaceIdFor _ _ Hhost) as [_ ->].
  unfold spaceIdFor.
  rewrite (local_host_not_subdomain _ Hlocal), Hlocal.
  repeat split.
  - intros ->. reflexivity.
  - intros v -> ->. reflexivity.
  - intros ->. reflexivity.
Qed.

Lemma local_override_witness :
  resolvedSpaceId {| headers_host := Some "localhost:3000";
                     url_searchParams := [("_space", "acme")] |}
    = Normal (Some "acme")
  /\ resolvedSpaceId {| headers_host := Some "127.0.0.1";
                        url_searchParams := [("page", "2")] |}
    = Normal (Some "default").
Proof.
  split.
  - apply (proj1 (local_override
                    {| headers_host := Some "localhost:3000";
                       url_searchParams := [("_space", "acme")] |}
                    "localhost" eq_refl eq_refl)).
    reflexivity.
  - apply (proj2 (proj2 (local_override
                    {| headers_host := Some "127.0.0.1";
                       url_searchParams := [("page", "2")] |}
                    "127.0.0.1" eq_refl eq_refl))).
    reflexivity.
Defined.

End MiddlewareFacts.


(** ** The cart key *)

Section CartKeyFacts.

Import JsString Spaces.

Lemma truthy_true (s : string) : truthy s = true <-> s <> "".
Proof. destruct s; simpl; split; congruence. Qed.

Lemma truthy_false (s : string) : truthy s = false <-> s = "".
Proof. destruct s; simpl; split; congruence. Qed.

(** The three arguments that select the unscoped key. *)
Lemma getCartKey_base (spaceId : option string) :
  getCartKey spaceId = "cart_id"
  <-> spaceId = None \/ spaceId = Some "" \/ spaceId = Some "default".
Proof.
  split.
  - destruct spaceId as [s|]; [|auto].
    unfold getCartKey. destruct s as [|c s]; [auto|].
    cbn [truthy negb orb].
    destruct (String.eqb_spec (String c s) "default") as [->|_]; [auto|].
    simpl. discriminate.
  - intros [->|[->| ->]]; reflexivity.
Qed.

Lemma getCartKey_scoped (t : string) :
  t <> "" -> t <> "default" -> getCartKey (Some t) = "cart_id_" +:+ t.
Proof.
  intros Hne Hnd. unfold getCartKey.
  apply truthy_true in Hne. rewrite Hne.
  apply String.eqb_neq in Hnd. rewrite Hnd. reflexivity.
Qed.

(** On non-empty tenant ids the key determines the id. *)
Lemma getCartKey_inj (t1 t2 : string) :
  t1 <> "" -> t2 <> "" ->
  getCartKey (Some t1) = getCartKey (Some t2) -> t1 = t2.
Proof.
  intros H1 H2 Heq.
  destruct (String.eqb_spec t1 "default") as [->|Hd1];
    destruct (String.eqb_spec t2 "default") as [->|Hd2].
  - reflexivity.
  - symmetry in Heq. apply getCartKey_base in Heq.
    destruct Heq as [?|[?|?]]; congruence.
  - apply getCartKey_base in Heq.
    destruct Heq as [?|[?|?]]; congruence.
  - rewrite !getCartKey_scoped in Heq by assumption.
    exact (String.app_inj "cart_id_" _ _ Heq).
Qed.

(** Two tenant ids share a cart key only when they are equal or when both
    are among the empty id and the default token. *)
Lemma getCartKey_eq_iff (t1 t2 : string) :
  getCartKey (Some t1) = getCartKey (Some t2)
  <-> t1 = t2
      \/ ((t1 = "" \/ t1 = "default") /\ (t2 = "" \/ t2 = "default")).
Proof.
  split.
  - intros Heq.
    destruct (decide (t1 = "")) as [->|H1].
    + symmetry in Heq. apply getCartKey_base in Heq.
      destruct Heq as [?|[?|?]]; [congruence| |]; simplify_eq; intuition.
    + destruct (decide (t2 = "")) as [->|H2].
      * apply getCartKey_base in Heq.
        destruct Heq as [?|[?|?]]; [congruence|congruence|].
        simplify_eq. intuition.
      * left. apply getCartKey_inj; assumption.
  - intros [->|[[->| ->] [->| ->]]]; reflexivity.
Qed.

(** C2, as stated, fails: the empty tenant id and the default token are
    two different tenant ids with one key. *)
Lemma getCartKey_not_injective :
  ~ (forall t1 t2 : string,
       t1 <> t2 -> getCartKey (Some t1) <> getCartKey (Some t2)).
Proof.
  intros H. apply (H "" "default"); [discriminate | reflexivity].
Qed.

(** C2 (amended): [getCartKey] gives two different tenant ids two
    different keys, except for the one pair of the empty id and the
    default token, which share the key [cart_id]; it gives equal arguments
    equal keys; and it gives the default token the constant [cart_id]. *)
Theorem getCartKey_injective_except_empty_default :
  (forall t1 t2 : string,
     t1 <> t2 ->
     ~ (t1 = "" /\ t2 = "default") ->
     ~ (t1 = "default" /\ t2 = "") ->
     getCartKey (Some t1) <> getCartKey (Some t2))
  /\ getCartKey (Some "") = getCartKey (Some "default")
  /\ (forall s1 s2 : option string, s1 = s2 -> getCartKey s1 = getCartKey s2)
  /\ getCartKey (Some "default") = "cart_id".
Proof.
  split; [|split; [reflexivity|split; [|reflexivity]]].
  - intros t1 t2 Hne H1 H2 Heq. apply getCartKey_eq_iff in Heq.
    destruct Heq as [Heq|[[Ha|Ha] [Hb|Hb]]].
    + exact (Hne Heq).
    + apply Hne. rewrite Ha, Hb. reflexivity.
    + apply H1. split; assumption.
    + apply H2. split; assumption.
    + apply Hne. rewrite Ha, Hb. reflexivity.
  - intros s1 s2 ->. reflexivity.
Qed.

Lemma getCartKey_injective_except_empty_default_witness :
  getCartKey (Some "acme") <> getCartKey (Some "other")
  /\ getCartKey (Some "") <> getCartKey (Some "acme")
  /\ getCartKey (Some "acme") <> getCartKey (Some "default").
Proof.
  split; [|split].
  - apply (proj1 getCartKey_injective_except_empty_default "acme" "other");
      [discriminate | intros [H _]; discriminate H | intros [H _]; discriminate H].
  - apply (proj1 getCartKey_injective_except_empty_default "" "acme");
      [discriminate | intros [_ H]; discriminate H | intros [H _]; discriminate H].
  - apply (proj1 getCartKey_injective_except_empty_default "acme" "default");
      [discriminate | intros [H _]; discriminate H | intros [H _]; discriminate H].
Defined.

(** C6, as stated, fails: the empty string is a tenant id other than the
    default token, and its key is not the base key with a suffix. *)
Lemma getCartKey_empty_not_suffixed :
  ~ (forall t : string,
       t <> "default" -> getCartKey (Some t) = "cart_id_" +:+ t).
Proof.
  intros H. specialize (H "" ltac:(discriminate)). discriminate H.
Qed.

(** C6 (amended): [getCartKey] maps the default tenant id to the unscoped
    base key [cart_id], and every other non-empty tenant id [t] to
    [cart_id_] followed by [t]. *)
Theorem getCartKey_default_or_suffixed :
  getCartKey (Some "default") = "cart_id"
  /\ (forall t : string,
        t <> "default" -> t <> "" ->
        getCartKey (Some t) = "cart_id_" +:+ t).
Proof.
  split; [reflexivity|].
  intros t Hnd Hne. apply getCartKey_scoped; assumption.
Qed.

Lemma getCartKey_default_or_suffixed_witness :
  getCartKey (Some "acme") = "cart_id_acme".
Proof.
  apply (proj2 getCartKey_default_or_suffixed "acme"); discriminate.
Defined.

(** C9: an empty and an undefined tenant id get the unscoped base key
    [cart_id], as the default token does; so the two different tenant ids
    [""] and ["default"] have the same cart storage key. *)
Theorem getCartKey_empty_is_default :
  getCartKey (Some "") = "cart_id"
  /\ getCartKey None = "cart_id"
  /\ getCartKey (Some "") = getCartKey (Some "default")
  /\ getCartKey None = getCartKey (Some "default")
  /\ "" <> "default".
Proof. repeat split; try reflexivity. discriminate. Qed.

End CartKeyFacts.


(** ** The theme injector *)

Section ThemeFacts.

Import JsString Spaces.

Example themeToCSS_two_roles :
  themeToCSS twoRoleTheme
  = "--primary: 195 80% 45%;" +:+ CSS_SEP +:+ "--background: 0 0% 100%;".
Proof. reflexivity. Qed.

Example themeToCSS_empty : themeToCSS emptyTheme = "".
Proof. reflexivity. Qed.







End ThemeFacts.


(** ** The catalog request *)

Section ProductsFacts.

Import JsString Products.

Lemma urlencode_char_safe (c : ascii) :
  urlencodedSafe (N_of_ascii c) = true ->
  join "" (List.map urlencodeByte (utf8Bytes c)) = String c "".
Proof.
  destruct c as [[] [] [] [] [] [] [] []]; vm_compute;
    intros H; first [reflexivity | discriminate H].
Qed.

(** Letters, digits and [*-._] are sent as they are. *)
Lemma urlencode_safe (s : string) :
  urlSafe s = true -> urlencode s = s.
Proof.
  induction s as [|c s IH]; [reflexivity|].
  cbn [urlSafe urlencode]. intros H. apply andb_true_iff in H as [Hc Hs].
  rewrite (urlencode_char_safe c Hc), (IH Hs). reflexivity.
Qed.

Lemma getProducts_params_scoped (spaceId : string) :
  spaceId <> "" -> spaceId <> "default" ->
  getProducts_params spaceId = [("space", spaceId)].
Proof.
  intros Hne Hnd. unfold getProducts_params.
  destruct spaceId as [|c s]; [congruence|].
  apply String.eqb_neq in Hnd. rewrite Hnd. reflexivity.
Qed.

Lemma getProducts_params_unscoped (spaceId : string) :
  spaceId = "default" \/ spaceId = "" -> getProducts_params spaceId = [].
Proof. intros [->| ->]; reflexivity. Qed.

(** The request of [getProducts]: its result is what [productsOf] makes
    of the backend's answer for the URL built from the tenant id. *)
Lemma getProducts_fetch {Product : Type}
    (fetch : string -> FetchResult (list Product)) (API_URL spaceId : string) :
  getProducts fetch API_URL spaceId
  = productsOf (fetch (getProducts_url API_URL spaceId)).
Proof.
  unfold getProducts, productsOf.
  destruct (fetch _) as [|[] [products|]]; reflexivity.
Qed.

(** C8: the catalog fetch of the product listing carries the query
    parameter [space] with the tenant id as its value exactly when the
    tenant id is present (non-empty) and not the default token: then
    [getProducts] returns what the backend answers for
    [API_URL/products?space=id]; for the default token (and the empty id)
    it returns what the backend answers for [API_URL/products], the URL
    without query. *)
Theorem getProducts_space_param {Product : Type}
    (fetch : string -> FetchResult (list Product)) (API_URL spaceId : string) :
  (params_has "space" (getProducts_params spaceId) = true
   <-> spaceId <> "" /\ spaceId <> "default")
  /\ (spaceId <> "" -> spaceId <> "default" ->
      getProducts_params spaceId = [("space", spaceId)]
      /\ getProducts_url API_URL spaceId
         = API_URL +:+ "/products?space=" +:+ urlencode spaceId
      /\ getProducts fetch API_URL spaceId
         = productsOf (fetch (API_URL +:+ "/products?space="
                              +:+ urlencode spaceId))
      /\ (urlSafe spaceId = true ->
          getProducts fetch API_URL spaceId
          = productsOf (fetch (API_URL +:+ "/products?space=" +:+ spaceId))))
  /\ (spaceId = "default" \/ spaceId = "" ->
      getProducts_params spaceId = []
      /\ getProducts_url API_URL spaceId = API_URL +:+ "/products"
      /\ getProducts fetch API_URL spaceId
         = productsOf (fetch (API_URL +:+ "/products"))).
Proof.
  assert (Hurl : spaceId <> "" -> spaceId <> "default" ->
                 getProducts_url API_URL spaceId
                 = API_URL +:+ "/products?space=" +:+ urlencode spaceId).
  { intros Hne Hnd. unfold getProducts_url.
    rewrite (getProducts_params_scoped _ Hne Hnd). reflexivity. }
  assert (Hplain : spaceId = "default" \/ spaceId = "" ->
                   getProducts_url API_URL spaceId = API_URL +:+ "/products").
  { intros H. unfold getProducts_url. rewrite (getProducts_params_unscoped _ H).
    cbn [params_toString List.map join truthy].
    rewrite app_empty_r. reflexivity. }
  split; [|split].
  - split.
    + intros H. split; intros ->; discriminate H.
    + intros [Hne Hnd]. rewrite (getProducts_params_scoped _ Hne Hnd).
      reflexivity.
  - intros Hne Hnd. split; [exact (getProducts_params_scoped _ Hne Hnd)|].
    split; [exact (Hurl Hne Hnd)|].
    split; [rewrite getProducts_fetch, (Hurl Hne Hnd); reflexivity|].
    intros Hsafe.
    rewrite getProducts_fetch, (Hurl Hne Hnd), (urlencode_safe _ Hsafe).
    reflexivity.
  - intros H. split; [exact (getProducts_params_unscoped _ H)|].
    split; [exact (Hplain H)|].
    rewrite getProducts_fetch, (Hplain H). reflexivity.
Qed.

Lemma getProducts_space_param_witness :
  let fetch := fun url : string =>
                 if String.eqb url "http://localhost:8000/api/products?space=acme"
                 then HttpResponse true (Some ["acme-sticker"])
                 else HttpResponse true (Some ["rswag-shirt"; "acme-sticker"]) in
  getProducts fetch (API_URL_of None) "acme" = Normal ["acme-sticker"]
  /\ getProducts fetch (API_URL_of None) "default"
     = Normal ["rswag-shirt"; "acme-sticker"].
Proof.
  intros fetch. split.
  - rewrite (proj2 (proj2 (proj2 (proj1 (proj2
               (getProducts_space_param fetch (API_URL_of None) "acme"))
               ltac:(discriminate) ltac:(discriminate)))) eq_refl).
    reflexivity.
  - rewrite (proj2 (proj2 (proj2 (proj2
               (getProducts_space_param fetch (API_URL_of None) "default"))
               (or_introl eq_refl)))).
    reflexivity.
Defined.

End ProductsFacts.


(** ** Clearing the cart *)

Section CartFacts.

Import JsString Spaces CartPages.

Context {Cart : Type}.

Lemma CheckoutSuccessPage_effect_storage (b : Browser) :
  localStorage (CheckoutSuccessPage_effect b)
  = delete (getCartKey (Some (getSpaceIdFromCookie (document b))))
           (localStorage b).
Proof. reflexivity. Qed.

(** [fetchCart] leaves the storage as it is or removes the current key. *)
Lemma fetchCart_storage (fetch : string -> FetchResult Cart)
    (API_URL : string) (b : Browser) (st : @CartPageState Cart) :
  localStorage (fst (fetchCart fetch API_URL b st)) = localStorage b
  \/ localStorage (fst (fetchCart fetch API_URL b st))
     = delete (getCartKey (Some (getSpaceIdFromCookie (document b))))
              (localStorage b).
Proof.
  unfold fetchCart.
  destruct (getItem _ b) as [id|]; [|left; reflexivity].
  destruct (truthy id); [|left; reflexivity].
  destruct (fetch _) as [|[] [data|]]; auto.
Qed.

(** An expired cart: the stored id is rejected by the backend. *)
Lemma fetchCart_expired (fetch : string -> FetchResult Cart)
    (API_URL : string) (b : Browser) (st : @CartPageState Cart)
    (id : string) (json : option Cart) :
  getItem (getCartKey (Some (getSpaceIdFromCookie (document b)))) b = Some id ->
  truthy id = true ->
  fetch (API_URL +:+ "/cart/" +:+ id) = HttpResponse false json ->
  localStorage (fst (fetchCart fetch API_URL b st))
  = delete (getCartKey (Some (getSpaceIdFromCookie (document b))))
           (localStorage b).
Proof.
  intros Hid Htruthy Hfetch. unfold fetchCart.
  rewrite Hid, Htruthy, Hfetch. reflexivity.
Qed.

(** C10, as stated, fails: with the default tenant resolved, clearing the
    cart removes the entry under the cart key of the empty tenant id,
    which is another tenant id. *)
Lemma clear_cart_other_tenant_counterexample :
  ~ (forall (b : Browser) (other : string),
       other <> getSpaceIdFromCookie (document b) ->
       localStorage (CheckoutSuccessPage_effect b) !! getCartKey (Some other)
       = localStorage b !! getCartKey (Some other)).
Proof.
  intros H.
  specialize (H {| document := Some {| document_cookie := "space_id=default" |};
                   localStorage := {[ "cart_id" := "cart-1" ]} |} "").
  rewrite CheckoutSuccessPage_effect_storage in H.
  change (getCartKey (Some "")) with "cart_id" in H.
  change (getCartKey (Some (getSpaceIdFromCookie _))) with "cart_id" in H.
  cbn [localStorage] in H.
  rewrite lookup_delete_eq, lookup_singleton_eq in H.
  discriminate H. vm_compute. discriminate.
Qed.

(** C10 (amended): clearing the cart after a successful checkout, and
    after detecting an expired cart, removes only the storage entry under
    the cart key of the currently resolved tenant: every other storage
    key keeps its entry, and so does the cart key of every other tenant
    id, except that the empty tenant id and the default token share the
    key [cart_id]. *)
Theorem clear_cart_frame (fetch : string -> FetchResult Cart)
    (API_URL : string) (b : Browser) (st : @CartPageState Cart) :
  let current := getSpaceIdFromCookie (document b) in
  let cartKey := getCartKey (Some current) in
  let afterSuccess := localStorage (CheckoutSuccessPage_effect b) in
  let afterFetch := localStorage (fst (fetchCart fetch API_URL b st)) in
  afterSuccess = delete cartKey (localStorage b)
  /\ (afterFetch = localStorage b \/ afterFetch = delete cartKey (localStorage b))
  /\ (forall (id : string) (json : option Cart),
        getItem cartKey b = Some id -> truthy id = true ->
        fetch (API_URL +:+ "/cart/" +:+ id) = HttpResponse false json ->
        afterFetch = delete cartKey (localStorage b))
  /\ (forall key : string,
        key <> cartKey ->
        afterSuccess !! key = localStorage b !! key
        /\ afterFetch !! key = localStorage b !! key)
  /\ (forall other : string,
        other <> current ->
        ~ (other = "" /\ current = "default") ->
        ~ (other = "default" /\ current = "") ->
        afterSuccess !! getCartKey (Some other)
          = localStorage b !! getCartKey (Some other)
        /\ afterFetch !! getCartKey (Some other)
          = localStorage b !! getCartKey (Some other)).
Proof.
  intros current cartKey afterSuccess afterFetch.
  assert (Hframe : forall key : string,
             key <> cartKey ->
             afterSuccess !! key = localStorage b !! key
             /\ afterFetch !! key = localStorage b !! key).
  { intros key Hkey. split.
    - subst afterSuccess. rewrite CheckoutSuccessPage_effect_storage.
      apply lookup_delete_ne. exact (not_eq_sym Hkey).
    - subst afterFetch.
      destruct (fetchCart_storage fetch API_URL b st) as [-> | ->];
        [reflexivity|]. apply lookup_delete_ne. exact (not_eq_sym Hkey). }
  split; [reflexivity|].
  split; [apply fetchCart_storage|].
  split; [intros id json; apply fetchCart_expired|].
  split; [exact Hframe|].
  intros other Hother H1 H2. apply Hframe.
  subst cartKey. intros Heq. apply getCartKey_eq_iff in Heq.
  destruct Heq as [Heq|[[Ho|Ho] [Hc|Hc]]].
  - exact (Hother Heq).
  - apply Hother. rewrite Ho, Hc. reflexivity.
  - apply H1. split; assumption.
  - apply H2. split; assumption.
  - apply Hother. rewrite Ho, Hc. reflexivity.
Qed.

End CartFacts.

Lemma clear_cart_frame_witness :
  let b := {| CartPages.document :=
                Some {| Spaces.document_cookie := "theme=dark; space_id=acme" |};
              CartPages.localStorage :=
                <[ "cart_id_acme" := "cart-2" ]> {[ "cart_id" := "cart-1" ]} |} in
  CartPages.localStorage (CartPages.CheckoutSuccessPage_effect b)
    !! Spaces.getCartKey (Some "default")
  = Some "cart-1".
Proof.
  intros b.
  rewrite (proj1 (proj2 (proj2 (proj2 (proj2
             (clear_cart_frame (Cart := unit) (fun _ => NetworkError) ""
                b {| CartPages.cart := None; CartPages.loading := true |}))))
             "default"
             ltac:(vm_compute; discriminate)
             ltac:(intros [H _]; discriminate H)
             ltac:(intros [_ H]; vm_compute in H; discriminate H))).
  reflexivity.
Defined.


(** ** The host header: letter case and port *)

Section HostHeaderFacts.

Import JsString Middleware.

Lemma toLowerChar_colon (c : ascii) :
  Ascii.eqb (toLowerChar c) ":" = Ascii.eqb c ":".
Proof. destruct c as [[] [] [] [] [] [] [] []]; reflexivity. Qed.

Lemma toLowerChar_idem (c : ascii) :
  toLowerChar (toLowerChar c) = toLowerChar c.
Proof. destruct c as [[] [] [] [] [] [] [] []]; reflexivity. Qed.

Lemma toLowerCase_idem (s : string) :
  toLowerCase (toLowerCase s) = toLowerCase s.
Proof.
  induction s as [|c s IH]; [reflexivity|].
  cbn [toLowerCase]. rewrite toLowerChar_idem, IH. reflexivity.
Qed.

(** Cutting at the first colon commutes with lower-casing. *)
Lemma split_head_toLowerCase (s : string) :
  head (split ":" (toLowerCase s)) = toLowerCase <$> head (split ":" s).
Proof.
  induction s as [|c s IH]; [reflexivity|].
  cbn [toLowerCase split]. rewrite toLowerChar_colon.
  destruct (Ascii.eqb c ":"); [reflexivity|].
  destruct (split_nonempty ":" s) as [x [xs Hx]].
  destruct (split_nonempty ":" (toLowerCase s)) as [y [ys Hy]].
  rewrite Hx, Hy in IH. rewrite Hx, Hy.
  cbn in IH. injection IH as ->. reflexivity.
Qed.

Lemma hostnameOf_toLowerCase (host : string) (query : URLSearchParams) :
  hostnameOf {| headers_host := Some (toLowerCase host);
                url_searchParams := query |}
  = hostnameOf {| headers_host := Some host; url_searchParams := query |}.
Proof.
  unfold hostnameOf. cbn [headers_host]. rewrite !or_else_empty.
  rewrite split_head_toLowerCase.
  destruct (head (split ":" host)) as [x|]; [|reflexivity].
  cbn [fmap option_fmap option_map method_on]. rewrite toLowerCase_idem.
  reflexivity.
Qed.

(** The response depends on the request through its host name and its
    query only. *)
Lemma middleware_hostnameOf (r1 r2 : NextRequest) :
  hostnameOf r1 = hostnameOf r2 ->
  url_searchParams r1 = url_searchParams r2 ->
  middleware r1 = middleware r2.
Proof.
  intros Hhost Hquery. unfold middleware. rewrite Hhost, Hquery. reflexivity.
Qed.

(** The [host] header is read without regard to letter case: two headers
    that differ only in the case of their letters get the same response,
    cookie included. *)
Theorem middleware_host_case_insensitive
    (host1 host2 : string) (query : URLSearchParams) :
  toLowerCase host1 = toLowerCase host2 ->
  middleware {| headers_host := Some host1; url_searchParams := query |}
  = middleware {| headers_host := Some host2; url_searchParams := query |}.
Proof.
  intros Hlower. apply middleware_hostnameOf; [|reflexivity].
  rewrite <- (hostnameOf_toLowerCase host1), <- (hostnameOf_toLowerCase host2).
  rewrite Hlower. reflexivity.
Qed.

Lemma middleware_host_case_insensitive_witness :
  middleware {| headers_host := Some "ACME.rswag.online";
                url_searchParams := [] |}
  = middleware {| headers_host := Some "acme.RSwag.Online";
                  url_searchParams := [] |}.
Proof.
  apply (middleware_host_case_insensitive
           "ACME.rswag.online" "acme.RSwag.Online" []).
  reflexivity.
Defined.

(** The port of the [host] header is ignored: a header with a port gets
    the response of the same header without it. *)
Theorem middleware_port_ignored
    (host port : string) (query : URLSearchParams) :
  includesChar ":" host = false ->
  middleware {| headers_host := Some (host +:+ String ":" port);
                url_searchParams := query |}
  = middleware {| headers_host := Some host; url_searchParams := query |}.
Proof.
  intros Hcolon. apply middleware_hostnameOf; [|reflexivity].
  unfold hostnameOf. cbn [headers_host]. rewrite !or_else_empty.
  rewrite (split_head_before _ _ port Hcolon), (split_head_whole _ _ Hcolon).
  reflexivity.
Qed.

Lemma middleware_port_ignored_witness :
  middleware {| headers_host := Some "acme.rswag.online:8443";
                url_searchParams := [] |}
  = middleware {| headers_host := Some "acme.rswag.online";
                  url_searchParams := [] |}.
Proof.
  apply (middleware_port_ignored "acme.rswag.online" "8443" []).
  reflexivity.
Defined.

Lemma replace_unfold (pat repl s : string) :
  replace pat repl s
  = match stripPrefix pat s with
    | Some rest => repl +:+ rest
    | None =>
        match s with
        | EmptyString => EmptyString
        | String c s' => String c (replace pat repl s')
        end
    end.
Proof. destruct s; reflexivity. Qed.

Lemma stripPrefix_lower (p s rest : string) :
  stripPrefix p s = Some rest ->
  toLowerCase s = s -> toLowerCase rest = rest.
Proof.
  revert s. induction p as [|a p IH]; intros s Hstrip Hlower.
  - cbn in Hstrip. injection Hstrip as <-. exact Hlower.
  - destruct s as [|b s]; [discriminate Hstrip|].
    cbn [stripPrefix] in Hstrip. destruct (Ascii.eqb a b); [|discriminate Hstrip].
    cbn [toLowerCase] in Hlower. injection Hlower as _ Hs.
    exact (IH s Hstrip Hs).
Qed.

(** Removing a piece of a lower-case string leaves it in lower case. *)
Lemma replace_lower (pat s : string) :
  toLowerCase s = s ->
  toLowerCase (replace pat "" s) = replace pat "" s.
Proof.
  induction s as [|c s IH]; intros Hlower; rewrite replace_unfold.
  - destruct (stripPrefix pat "") as [rest|] eqn:E; [|reflexivity].
    exact (stripPrefix_lower _ _ _ E Hlower).
  - destruct (stripPrefix pat (String c s)) as [rest|] eqn:E.
    + exact (stripPrefix_lower _ _ _ E Hlower).
    + cbn [toLowerCase] in Hlower |- *. injection Hlower as Hc Hs.
      rewrite Hc, (IH Hs). reflexivity.
Qed.

(** Off the local-development hosts the tenant id is always in lower
    case: it is the default token or a piece of the lower-cased host
    name. *)
Theorem resolved_space_lower_case (request : NextRequest) (hostname : string) :
  hostnameOf request = Normal hostname ->
  isLocalHost hostname = false ->
  exists spaceId : string,
    resolvedSpaceId request = Normal (Some spaceId)
    /\ toLowerCase spaceId = spaceId.
Proof.
  intros Hhost Hlocal.
  destruct (resolvedSpaceId_spaceIdFor _ _ Hhost) as [_ ->].
  eexists. split; [reflexivity|].
  assert (Hlower : toLowerCase hostname = hostname).
  { unfold hostnameOf in Hhost.
    destruct (head (split ":" (or_else (headers_host request) ""))) as [x|];
      [|discriminate Hhost].
    cbn in Hhost. injection Hhost as <-. apply toLowerCase_idem. }
  unfold spaceIdFor. rewrite Hlocal.
  destruct (endsWith ROOT_SUFFIX hostname); [|reflexivity].
  apply replace_lower, Hlower.
Qed.

Lemma resolved_space_lower_case_witness :
  exists spaceId : string,
    resolvedSpaceId {| headers_host := Some "Commons.RSWAG.Online";
                       url_searchParams := [("_space", "Other")] |}
      = Normal (Some spaceId)
    /\ toLowerCase spaceId = spaceId.
Proof.
  apply (resolved_space_lower_case
           {| headers_host := Some "Commons.RSWAG.Online";
              url_searchParams := [("_space", "Other")] |}
           "commons.rswag.online"); reflexivity.
Defined.

End HostHeaderFacts.


(** ** Reading the tenant marker back from [document.cookie] *)

Section CookieFacts.

Import JsString Spaces DocumentCookie.

Lemma untilSemicolon_whole (v : string) :
  includesChar ";" v = false -> untilSemicolon v = v.
Proof.
  induction v as [|c v IH]; [reflexivity|].
  cbn [includesChar untilSemicolon]. intros H.
  apply orb_false_elim in H as [Hc Hv].
  rewrite Ascii.eqb_sym, Hc, (IH Hv). reflexivity.
Qed.

Lemma untilSemicolon_before (v rest : string) :
  includesChar ";" v = false -> untilSemicolon (v +:+ String ";" rest) = v.
Proof.
  induction v as [|c v IH]; intros H.
  - reflexivity.
  - cbn [includesChar] in H. apply orb_false_elim in H as [Hc Hv].
    cbn [String.append untilSemicolon].
    rewrite Ascii.eqb_sym, Hc, (IH Hv). reflexivity.
Qed.

(** The search for a semicolon passes over text without one. *)
Lemma matchAfterSemicolon_app (a b : string) :
  includesChar ";" a = false ->
  matchAfterSemicolon (a +:+ b) = matchAfterSemicolon b.
Proof.
  induction a as [|c a IH]; intros H; [reflexivity|].
  cbn [includesChar] in H. apply orb_false_elim in H as [Hc Ha].
  cbn [String.append matchAfterSemicolon].
  rewrite Ascii.eqb_sym, Hc. exact (IH Ha).
Qed.

(** A name followed by [=] starts with another name followed by [=] only
    when the two names are equal. *)
Lemma stripPrefix_name (p n rest : string) :
  includesChar "=" p = false ->
  includesChar "=" n = false ->
  stripPrefix (p +:+ "=") (n +:+ String "=" rest)
  = if String.eqb n p then Some rest else None.
Proof.
  revert n. induction p as [|a p IH]; intros n Hp Hn.
  - destruct n as [|c n]; [reflexivity|].
    cbn [includesChar] in Hn. apply orb_false_elim in Hn as [Hc _].
    cbn [String.append stripPrefix String.eqb]. rewrite Hc. reflexivity.
  - cbn [includesChar] in Hp. apply orb_false_elim in Hp as [Ha Hp].
    destruct n as [|c n].
    + cbn [String.append stripPrefix String.eqb].
      rewrite Ascii.eqb_sym, Ha. reflexivity.
    + cbn [includesChar] in Hn. apply orb_false_elim in Hn as [_ Hn].
      cbn [String.append stripPrefix String.eqb].
      rewrite (Ascii.eqb_sym c a).
      destruct (Ascii.eqb a c); [exact (IH n Hp Hn) | reflexivity].
Qed.

Lemma cookiePairOk_true (name value : string) :
  cookiePairOk (name, value) = true ->
  includesChar ";" name = false
  /\ includesChar "=" name = false
  /\ skipWhiteSpace (name +:+ String "=" value) = name +:+ String "=" value
  /\ includesChar ";" value = false.
Proof.
  unfold cookiePairOk. intros H.
  apply andb_true_iff in H as [H Hv]. apply andb_true_iff in H as [H Hw].
  apply andb_true_iff in H as [Hs He].
  apply negb_true_iff in Hv, Hw, Hs, He.
  repeat split; try assumption.
  destruct name as [|c name]; [reflexivity|].
  cbn [String.append skipWhiteSpace]. rewrite Hw. reflexivity.
Qed.

Lemma cookieString_cons (name value : string) (rest : CookieJar) :
  cookieString ((name, value) :: rest)
  = name +:+ String "=" (value +:+ match rest with
                                   | [] => ""
                                   | _ :: _ => String ";" (String " " (cookieString rest))
                                   end).
Proof.
  unfold cookieString. destruct rest as [|pair rest].
  - cbn [List.map join]. rewrite app_empty_r. reflexivity.
  - cbn [List.map join]. rewrite !app_assoc. reflexivity.
Qed.

Lemma skipWhiteSpace_cookieString (jar : CookieJar) :
  Forall (fun pair => cookiePairOk pair = true) jar ->
  skipWhiteSpace (cookieString jar) = cookieString jar.
Proof.
  intros Hjar. destruct Hjar as [|[name value] rest Hpair _]; [reflexivity|].
  rewrite cookieString_cons.
  destruct name as [|c name]; [reflexivity|].
  unfold cookiePairOk in Hpair.
  apply andb_true_iff in Hpair as [H _]. apply andb_true_iff in H as [_ Hw].
  apply negb_true_iff in Hw.
  cbn [String.append skipWhiteSpace]. rewrite Hw. reflexivity.
Qed.

(** The pattern finds the first cookie called [space_id]. *)
Lemma matchSpaceId_cookieString (jar : CookieJar) :
  Forall (fun pair => cookiePairOk pair = true) jar ->
  matchSpaceId (cookieString jar) = firstCookie "space_id" jar.
Proof.
  induction 1 as [|[name value] rest Hpair Hrest IH]; [reflexivity|].
  apply cookiePairOk_true in Hpair as (Hsemi & Heq & _ & Hvalue).
  rewrite cookieString_cons. unfold matchSpaceId.
  change "space_id=" with ("space_id" +:+ "=").
  rewrite (stripPrefix_name "space_id" name _ eq_refl Heq).
  cbn [firstCookie]. destruct (String.eqb name "space_id").
  - f_equal. destruct rest as [|pair rest].
    + rewrite app_empty_r. apply untilSemicolon_whole, Hvalue.
    + apply untilSemicolon_before, Hvalue.
  - rewrite (matchAfterSemicolon_app name _ Hsemi).
    change (String "=" ?x) with ("=" +:+ x).
    rewrite (matchAfterSemicolon_app "=" _ eq_refl).
    rewrite (matchAfterSemicolon_app value _ Hvalue).
    destruct rest as [|pair rest]; [reflexivity|].
    rewrite <- IH. unfold matchSpaceId.
    cbn [matchAfterSemicolon Ascii.eqb Bool.eqb].
    change (skipWhiteSpace (String " " ?x)) with (skipWhiteSpace x).
    rewrite (skipWhiteSpace_cookieString _ Hrest).
    reflexivity.
Qed.

(** Reading the marker back: when [document.cookie] lists well-formed
    cookies, [getSpaceIdFromCookie] returns the value of the first cookie
    called [space_id], unchanged, and the default token when there is no
    such cookie. *)
Theorem getSpaceIdFromCookie_cookieString (jar : CookieJar) :
  Forall (fun pair => cookiePairOk pair = true) jar ->
  getSpaceIdFromCookie (Some {| document_cookie := cookieString jar |})
  = match firstCookie "space_id" jar with
    | Some value => value
    | None => "default"
    end.
Proof.
  intros Hjar. unfold getSpaceIdFromCookie. cbn [document_cookie].
  rewrite (matchSpaceId_cookieString jar Hjar). reflexivity.
Qed.

Lemma getSpaceIdFromCookie_cookieString_witness :
  getSpaceIdFromCookie
    (Some {| document_cookie :=
               cookieString [("theme", "dark"); ("xspace_id", "no");
                             ("space_id", "acme"); ("space_id", "late")] |})
  = "acme".
Proof.
  apply (getSpaceIdFromCookie_cookieString
           [("theme", "dark"); ("xspace_id", "no");
            ("space_id", "acme"); ("space_id", "late")]).
  repeat constructor.
Defined.

End CookieFacts.


(** ** The style element of the root layout *)

Section LayoutFacts.

Import JsString Spaces Layout.

Lemma truthy_app (a b : string) : truthy (a +:+ b) = truthy a || truthy b.
Proof. destruct a; reflexivity. Qed.

(** A joined list that starts with a non-empty string is not empty. *)
Lemma join_truthy (sep x : string) (rest : list string) :
  truthy x = true -> truthy (join sep (x :: rest)) = true.
Proof.
  intros Hx. destruct rest as [|y rest]; [exact Hx|].
  cbn [join]. rewrite truthy_app, Hx. reflexivity.
Qed.

Lemma assignment_truthy (theme : SpaceTheme) (entry : ThemeKey * string) :
  truthy (assignment theme entry) = true.
Proof.
  destruct entry as [key cssVar]. unfold assignment.
  rewrite truthy_app. apply orb_true_r.
Qed.

Lemma filter_nil_iff {A : Type} (f : A -> bool) (l : list A) :
  List.filter f l = [] <-> (forall x : A, In x l -> f x = false).
Proof.
  induction l as [|a l IH]; cbn [List.filter].
  - split; [intros _ x []|reflexivity].
  - destruct (f a) eqn:E; split.
    + discriminate.
    + intros H. rewrite (H a (or_introl eq_refl)) in E. discriminate E.
    + intros H x [<-|Hx]; [exact E | exact (proj1 IH H x Hx)].
    + intros H. apply IH. intros x Hx. apply H. right. exact Hx.
Qed.

Lemma THEME_VAR_MAP_complete (key : ThemeKey) :
  In (key, cssVarOf key) THEME_VAR_MAP.
Proof. destruct key; vm_compute; tauto. Qed.

(** No assignment is emitted exactly when no role is present. *)
Lemma themeAssignments_nil (theme : SpaceTheme) :
  themeAssignments theme = []
  <-> (forall key : ThemeKey, present theme key = false).
Proof.
  unfold themeAssignments. split.
  - intros H key. apply map_eq_nil in H.
    exact (proj1 (filter_nil_iff _ _) H (key, cssVarOf key)
                 (THEME_VAR_MAP_complete key)).
  - intros H. replace (List.filter _ THEME_VAR_MAP) with (@nil (ThemeKey * string));
      [reflexivity|].
    symmetry. apply filter_nil_iff. intros [key cssVar] _. apply H.
Qed.

Lemma themeToCSS_nil_iff (theme : SpaceTheme) :
  themeToCSS theme = ""
  <-> (forall key : ThemeKey, present theme key = false).
Proof.
  rewrite <- themeAssignments_nil. unfold themeToCSS. split.
  - intros H. destruct (themeAssignments theme) as [|line lines] eqn:E;
      [reflexivity|].
    assert (Hline : truthy line = true).
    { unfold themeAssignments in E.
      destruct (List.filter _ THEME_VAR_MAP) as [|entry entries];
        [discriminate E|].
      cbn [List.map] in E. injection E as <- _. apply assignment_truthy. }
    pose proof (join_truthy CSS_SEP line lines Hline) as Hjoin.
    rewrite H in Hjoin. discriminate Hjoin.
  - intros ->. reflexivity.
Qed.

(** The serialized theme is the empty string exactly when the theme has
    no present (non-empty) role; so a theme without roles adds nothing to
    the page, and any present role adds text. *)
Theorem themeToCSS_empty_iff (theme : SpaceTheme) :
  themeToCSS theme = ""
  <-> (forall key : ThemeKey, present theme key = false).
Proof.
  split.
  - intros Hcss key. exact (proj1 (themeToCSS_nil_iff theme) Hcss key).
  - intros Hnone. exact (proj2 (themeToCSS_nil_iff theme) Hnone).
Qed.

(** Some role is present, or none is. *)
Lemma classic_present (theme : SpaceTheme) :
  (exists key : ThemeKey, present theme key = true)
  \/ (forall key : ThemeKey, present theme key = false).
Proof.
  destruct (List.filter (fun '(key, _) => present theme key) THEME_VAR_MAP)
    as [|[key cssVar] entries] eqn:E.
  - right. apply themeAssignments_nil. unfold themeAssignments.
    rewrite E. reflexivity.
  - left. exists key.
    assert (Hin : In (key, cssVar)
                     (List.filter (fun '(key, _) => present theme key)
                                  THEME_VAR_MAP)).
    { rewrite E. left. reflexivity. }
    apply List.filter_In in Hin as [_ Hkey]. exact Hkey.
Qed.

Lemma getSpaceConfig_cases (fetch : string -> FetchResult SpaceConfig)
    (API_URL spaceId : string) :
  (exists config : SpaceConfig,
      fetch (API_URL +:+ "/spaces/" +:+ spaceId) = HttpResponse true (Some config)
      /\ getSpaceConfig fetch API_URL spaceId = Normal (Some config))
  \/ ((forall config : SpaceConfig,
         fetch (API_URL +:+ "/spaces/" +:+ spaceId)
         <> HttpResponse true (Some config))
      /\ (getSpaceConfig fetch API_URL spaceId = Normal None
          \/ exists e : JsError, getSpaceConfig fetch API_URL spaceId = Throw e)).
Proof.
  unfold getSpaceConfig.
  destruct (fetch _) as [|[] [config|]]; eauto;
    right; (split; [intros config; discriminate|]); eauto.
Qed.

(** The layout emits its style element exactly when the space's
    configuration was fetched and its theme has a present role; the
    element then holds the serialized theme inside a [:root] rule. *)
Theorem RootLayout_style (fetch : string -> FetchResult SpaceConfig)
    (API_URL : string) (cookieStore : gmap string string) (view : LayoutView) :
  RootLayout fetch API_URL cookieStore = Normal view ->
  (is_Some (view_style view)
   <-> exists (config : SpaceConfig) (theme : SpaceTheme) (key : ThemeKey),
         fetch (API_URL +:+ "/spaces/" +:+ serverSpaceId cookieStore)
           = HttpResponse true (Some config)
         /\ space_theme config = Some theme
         /\ present theme key = true)
  /\ (forall html : string,
        view_style view = Some html ->
        exists (config : SpaceConfig) (theme : SpaceTheme),
          fetch (API_URL +:+ "/spaces/" +:+ serverSpaceId cookieStore)
            = HttpResponse true (Some config)
          /\ space_theme config = Some theme
          /\ html = ":root {" +:+ CSS_SEP +:+ themeToCSS theme
                    +:+ String "010"%char "  }").
Proof.
  unfold RootLayout.
  destruct (getSpaceConfig_cases fetch API_URL (serverSpaceId cookieStore))
    as [(config & Hfetch & ->)|(Hnot & [->|[e ->]])].
  - cbn [mbind completion_bind option_bind].
    destruct (space_theme config) as [theme|] eqn:Htheme.
    + intros [= <-]. cbn [view_style].
      destruct (truthy (themeToCSS theme)) eqn:Hcss.
      * split.
        -- split; [intros _|eauto].
           destruct (classic_present theme) as [[key Hkey]|Hnone]; [eauto 10|].
           apply themeToCSS_nil_iff in Hnone. rewrite Hnone in Hcss.
           discriminate Hcss.
        -- intros html [= <-]. eauto.
      * apply truthy_false in Hcss. split.
        -- split; [intros [x [=]]|].
           intros (config' & theme' & key & Hfetch' & Htheme' & Hkey).
           rewrite Hfetch in Hfetch'. injection Hfetch' as <-.
           rewrite Htheme in Htheme'. injection Htheme' as <-.
           rewrite (proj1 (themeToCSS_nil_iff theme) Hcss key) in Hkey.
           discriminate Hkey.
        -- intros html [=].
    + intros [= <-]. cbn [view_style truthy]. split.
      * split; [intros [x [=]]|].
        intros (config' & theme' & key & Hfetch' & Htheme' & _).
        rewrite Hfetch in Hfetch'. injection Hfetch' as <-. congruence.
      * intros html [=].
  - cbn [mbind completion_bind option_bind].
    intros [= <-]. cbn [view_style truthy]. split.
    + split; [intros [x [=]]|].
      intros (config & _ & _ & Hfetch & _). exfalso. exact (Hnot config Hfetch).
    + intros html [=].
  - cbn [mbind completion_bind]. discriminate.
Qed.

Lemma or_else_truthy (o : option string) (d : string) :
  truthy d = true -> truthy (or_else o d) = true.
Proof.
  intros Hd. unfold or_else. destruct o as [s|]; [|exact Hd].
  destruct (truthy s) eqn:E; [exact E | exact Hd].
Qed.

(** The layout falls back to the default branding: when the
    configuration request fails or is answered with an error status, the
    page shows the name [rSwag] and the default footer, without logo and
    without style element; and whatever the configuration holds, the
    brand name and the footer text are never empty. *)
Theorem RootLayout_fallback (fetch : string -> FetchResult SpaceConfig)
    (API_URL : string) (cookieStore : gmap string string) :
  (fetch (API_URL +:+ "/spaces/" +:+ serverSpaceId cookieStore) = NetworkError
   \/ (exists json : option SpaceConfig,
         fetch (API_URL +:+ "/spaces/" +:+ serverSpaceId cookieStore)
         = HttpResponse false json) ->
   RootLayout fetch API_URL cookieStore
   = Normal {| view_name := "rSwag";
               view_footerText := "rSpace. Infrastructure for the commons.";
               view_logo := None;
               view_style := None |})
  /\ (forall view : LayoutView,
        RootLayout fetch API_URL cookieStore = Normal view ->
        truthy (view_name view) = true
        /\ truthy (view_footerText view) = true).
Proof.
  split.
  - intros [Hfetch|[json Hfetch]]; unfold RootLayout, getSpaceConfig;
      rewrite Hfetch; reflexivity.
  - intros view. unfold RootLayout.
    destruct (getSpaceConfig fetch API_URL (serverSpaceId cookieStore))
      as [space|e]; cbn [mbind completion_bind]; [|discriminate].
    intros [= <-]. cbn [view_name view_footerText].
    split; apply or_else_truthy; reflexivity.
Qed.

Lemma RootLayout_fallback_witness :
  RootLayout (fun _ => NetworkError) "http://backend/api" ∅
  = Normal {| view_name := "rSwag";
              view_footerText := "rSpace. Infrastructure for the commons.";
              view_logo := None;
              view_style := None |}.
Proof.
  apply (proj1 (RootLayout_fallback (fun _ => NetworkError)
                  "http://backend/api" ∅)).
  left. reflexivity.
Defined.

Lemma RootLayout_style_witness :
  let config :=
    {| space_id := "acme"; space_name := "Acme"; space_tagline := "";
       space_description := ""; space_domain := "acme.rswag.online";
       space_footer_text := ""; space_theme := Some twoRoleTheme;
       space_design_filter := "acme"; space_logo_url := None;
       space_design_tips := [] |} in
  exists (c : SpaceConfig) (theme : SpaceTheme),
    c = config /\ space_theme c = Some theme
    /\ ":root {" +:+ CSS_SEP +:+ themeToCSS twoRoleTheme
        +:+ String "010"%char "  }"
       = ":root {" +:+ CSS_SEP +:+ themeToCSS theme
         +:+ String "010"%char "  }".
Proof.
  intros config.
  destruct (proj2 (RootLayout_style
                     (fun _ => HttpResponse true (Some config))
                     "http://backend/api" {[ "space_id" := "acme" ]}
                     _ eq_refl) _ eq_refl)
    as (c & theme & Hfetch & Htheme & Hhtml).
  exists c, theme. injection Hfetch as <-.
  split; [reflexivity|]. split; [exact Htheme | exact Hhtml].
Defined.

End LayoutFacts.


(** ** The catalog URL separates tenants as the cart key does *)

Section CatalogUrlFacts.

Import JsString JsStringExt Spaces Products UrlDecode.

Lemma allChars_app (p : ascii -> bool) (a b : string) :
  allChars p (a +:+ b) = allChars p a && allChars p b.
Proof.
  induction a as [|c a IH]; [reflexivity|].
  cbn [String.append allChars]. rewrite IH, andb_assoc. reflexivity.
Qed.

(** A string made of characters in [p] holds no character outside [p]. *)
Lemma allChars_excludes (p : ascii -> bool) (c : ascii) (s : string) :
  allChars p s = true -> p c = false -> includesChar c s = false.
Proof.
  intros Hs Hc. induction s as [|d s IH]; [reflexivity|].
  cbn [allChars] in Hs. apply andb_true_iff in Hs as [Hd Hs].
  cbn [includesChar]. rewrite (IH Hs), orb_false_r.
  destruct (Ascii.eqb_spec c d) as [->|_]; [congruence | reflexivity].
Qed.

Lemma urlencode_char_alphabet (c : ascii) :
  allChars urlencodedChar (join "" (List.map urlencodeByte (utf8Bytes c))) = true.
Proof. destruct c as [[] [] [] [] [] [] [] []]; vm_compute; reflexivity. Qed.

(** A serialized value consists of letters, digits, [*-._], [%] and [+]
    only. *)
Lemma urlencode_alphabet (s : string) :
  allChars urlencodedChar (urlencode s) = true.
Proof.
  induction s as [|c s IH]; [reflexivity|].
  cbn [urlencode]. rewrite allChars_app, urlencode_char_alphabet, IH.
  reflexivity.
Qed.

Lemma decodeFirst_urlencode_char (c : ascii) (rest : string) :
  decodeFirst (join "" (List.map urlencodeByte (utf8Bytes c)) +:+ rest)
  = Some (c, rest).
Proof. destruct c as [[] [] [] [] [] [] [] []]; vm_compute; reflexivity. Qed.

(** Two different strings have two different serializations. *)
Lemma urlencode_inj (a b : string) : urlencode a = urlencode b -> a = b.
Proof.
  revert b. induction a as [|c a IH]; intros [|d b] H.
  - reflexivity.
  - apply (f_equal decodeFirst) in H. cbn [urlencode] in H.
    rewrite decodeFirst_urlencode_char in H. discriminate H.
  - apply (f_equal decodeFirst) in H. cbn [urlencode] in H.
    rewrite decodeFirst_urlencode_char in H. discriminate H.
  - apply (f_equal decodeFirst) in H. cbn [urlencode] in H.
    rewrite !decodeFirst_urlencode_char in H. injection H as -> H.
    f_equal. exact (IH b H).
Qed.

Lemma getProducts_url_scoped (API_URL spaceId : string) :
  spaceId <> "" -> spaceId <> "default" ->
  getProducts_url API_URL spaceId
  = API_URL +:+ "/products?space=" +:+ urlencode spaceId.
Proof.
  intros Hne Hnd. unfold getProducts_url.
  rewrite (getProducts_params_scoped _ Hne Hnd). reflexivity.
Qed.

Lemma getProducts_url_unscoped (API_URL spaceId : string) :
  spaceId = "default" \/ spaceId = "" ->
  getProducts_url API_URL spaceId = API_URL +:+ "/products".
Proof.
  intros H. unfold getProducts_url. rewrite (getProducts_params_unscoped _ H).
  cbn [params_toString List.map join truthy]. rewrite app_empty_r. reflexivity.
Qed.

(** Whatever the tenant id, [getProducts] returns what the backend
    answers for one URL, and that URL is the products endpoint alone or
    the products endpoint with the single parameter [space], whose value
    is made of letters, digits, [*-._], [%] and [+] only: the id cannot
    add a parameter to the query (no [&], [=], [#]) or change the path (no
    [/], [?]). *)
Theorem getProducts_url_shape (API_URL spaceId : string) :
  exists url : string,
    (forall (Product : Type) (fetch : string -> FetchResult (list Product)),
        getProducts fetch API_URL spaceId = productsOf (fetch url))
    /\ getProducts_url API_URL spaceId = url
    /\ (url = API_URL +:+ "/products"
        \/ exists value : string,
             url = API_URL +:+ "/products?space=" +:+ value
             /\ allChars urlencodedChar value = true
             /\ includesChar "&" value = false
             /\ includesChar "=" value = false
             /\ includesChar "#" value = false
             /\ includesChar "/" value = false
             /\ includesChar "?" value = false).
Proof.
  exists (getProducts_url API_URL spaceId).
  split; [intros Product fetch; apply getProducts_fetch|].
  split; [reflexivity|].
  destruct (decide (spaceId = "default" \/ spaceId = "")) as [H|H].
  - left. exact (getProducts_url_unscoped API_URL spaceId H).
  - right. exists (urlencode spaceId).
    split; [apply getProducts_url_scoped; tauto|].
    pose proof (urlencode_alphabet spaceId) as Halpha.
    split; [exact Halpha|].
    repeat split; apply (allChars_excludes _ _ _ Halpha); reflexivity.
Qed.

(** The catalog URLs of two tenant ids are equal exactly when their cart
    keys are. *)
Lemma getProducts_url_eq_iff (API_URL t1 t2 : string) :
  getProducts_url API_URL t1 = getProducts_url API_URL t2
  <-> getCartKey (Some t1) = getCartKey (Some t2).
Proof.
  rewrite getCartKey_eq_iff.
  destruct (decide (t1 = "" \/ t1 = "default")) as [H1|H1];
    destruct (decide (t2 = "" \/ t2 = "default")) as [H2|H2].
  - rewrite !getProducts_url_unscoped by tauto. tauto.
  - rewrite (getProducts_url_unscoped API_URL t1) by tauto.
    rewrite (getProducts_url_scoped API_URL t2) by tauto.
    split.
    + intros H. apply (String.app_inj API_URL) in H. discriminate H.
    + intros [->|[_ ?]]; tauto.
  - rewrite (getProducts_url_scoped API_URL t1) by tauto.
    rewrite (getProducts_url_unscoped API_URL t2) by tauto.
    split.
    + intros H. apply (String.app_inj API_URL) in H. discriminate H.
    + intros [->|[? _]]; tauto.
  - rewrite !getProducts_url_scoped by tauto.
    split.
    + intros H. apply (String.app_inj API_URL) in H.
      apply (String.app_inj "/products?space=") in H.
      left. exact (urlencode_inj _ _ H).
    + intros [->|[? _]]; tauto.
Qed.

(** Two tenant ids get the same catalog from [getProducts], whatever the
    backend answers, exactly when they get the same cart key: the catalog
    request and the cart storage draw the same line between tenants (the
    empty id and the default token together, every other id on its own).
    The two requests go to the same URL in exactly that case. *)
Theorem catalog_url_eq_iff_cart_key_eq (API_URL t1 t2 : string) :
  ((forall (Product : Type) (fetch : string -> FetchResult (list Product)),
       getProducts fetch API_URL t1 = getProducts fetch API_URL t2)
   <-> getCartKey (Some t1) = getCartKey (Some t2))
  /\ (getProducts_url API_URL t1 = getProducts_url API_URL t2
      <-> getCartKey (Some t1) = getCartKey (Some t2)).
Proof.
  split; [|apply getProducts_url_eq_iff]. split.
  - intros Hsame. apply (getProducts_url_eq_iff API_URL).
    specialize (Hsame unit
                  (fun url => if String.eqb url (getProducts_url API_URL t1)
                              then HttpResponse true (Some [tt])
                              else NetworkError)).
    rewrite !getProducts_fetch in Hsame. rewrite String.eqb_refl in Hsame.
    destruct (String.eqb_spec (getProducts_url API_URL t2)
                              (getProducts_url API_URL t1)) as [Heq|_].
    + symmetry. exact Heq.
    + cbn [productsOf] in Hsame. discriminate Hsame.
  - intros Hkey Product fetch. rewrite !getProducts_fetch.
    rewrite (proj2 (getProducts_url_eq_iff API_URL t1 t2) Hkey). reflexivity.
Qed.

End CatalogUrlFacts.


(** ** Adding to the cart *)

Section AddToCartFacts.

Import JsString JsStringExt Spaces CartPages ProductPage.

Context {CartJson : Type}.
Variable json_id : CartJson -> JsonId.
Variable fetch : Method -> string -> FetchResult CartJson.
Variable API_URL : string.

(** The two outcomes of [getOrCreateCart]: the storage is left as it is
    and the stored id (or null) is returned, or a new id is stored under
    the current tenant's key and returned. *)
Lemma getOrCreateCart_cases (b : Browser) :
  let cartKey := getCartKey (Some (getSpaceIdFromCookie (document b))) in
  (fst (getOrCreateCart json_id fetch API_URL b) = b
   /\ (snd (getOrCreateCart json_id fetch API_URL b) = None
       \/ snd (getOrCreateCart json_id fetch API_URL b) = getItem cartKey b))
  \/ (exists data : CartJson,
        fetch POST (API_URL +:+ "/cart") = HttpResponse true (Some data)
        /\ getOrCreateCart json_id fetch API_URL b
           = (setItem cartKey (jsonIdText (json_id data)) b,
              jsonIdResult (json_id data))).
Proof.
  intros cartKey. unfold getOrCreateCart. fold cartKey.
  destruct (match getItem cartKey b with
            | Some id => _
            | None => false
            end).
  - left. cbn [fst snd]. auto.
  - destruct (fetch POST _) as [|[] [data|]]; cbn [fst snd]; eauto.
Qed.

Lemma getOrCreateCart_document (b : Browser) :
  document (fst (getOrCreateCart json_id fetch API_URL b)) = document b.
Proof.
  destruct (getOrCreateCart_cases b) as [[Hb _]|(data & _ & Heq)].
  - rewrite Hb. reflexivity.
  - rewrite Heq. reflexivity.
Qed.

Lemma getOrCreateCart_getItem (b : Browser) (cartId : string) :
  snd (getOrCreateCart json_id fetch API_URL b) = Some cartId ->
  getItem (getCartKey (Some (getSpaceIdFromCookie (document b))))
          (fst (getOrCreateCart json_id fetch API_URL b))
  = Some cartId.
Proof.
  destruct (getOrCreateCart_cases b) as [[Hb [Hnone|Hsame]]|(data & _ & Heq)].
  - rewrite Hnone. discriminate.
  - rewrite Hb, Hsame. auto.
  - rewrite Heq. cbn [fst snd]. intros Hid.
    destruct (json_id data) as [id| |]; try discriminate Hid.
    injection Hid as <-.
    unfold getItem, setItem. cbn [localStorage jsonIdText].
    apply lookup_insert_eq.
Qed.

(** A returned cart id is the one stored under the current tenant's cart
    key: whoever reads the key next, for the same tenant, finds the cart
    that the items were added to. *)
Theorem getOrCreateCart_stored (b : Browser) (cartId : string) :
  snd (getOrCreateCart json_id fetch API_URL b) = Some cartId ->
  getItem (getCartKey (Some (getSpaceIdFromCookie (document b))))
          (fst (getOrCreateCart json_id fetch API_URL b))
  = Some cartId.
Proof.
  intros Hid. exact (getOrCreateCart_getItem b cartId Hid).
Qed.

(** [getOrCreateCart] writes under the current tenant's cart key only,
    and removes nothing: every other key keeps its entry, and a key that
    had an entry still has one. *)
Theorem getOrCreateCart_frame (b : Browser) :
  let cartKey := getCartKey (Some (getSpaceIdFromCookie (document b))) in
  let after := fst (getOrCreateCart json_id fetch API_URL b) in
  document after = document b
  /\ (forall key : string,
        key <> cartKey -> localStorage after !! key = localStorage b !! key)
  /\ (forall key : string,
        is_Some (localStorage b !! key) -> is_Some (localStorage after !! key)).
Proof.
  intros cartKey after. subst after.
  destruct (getOrCreateCart_cases b) as [[Hb _]|(data & _ & Heq)].
  - rewrite Hb. auto.
  - rewrite Heq. cbn [fst]. unfold setItem. cbn [document localStorage].
    split; [reflexivity|]. split.
    + intros key Hkey. apply lookup_insert_ne. exact (not_eq_sym Hkey).
    + intros key Hsome. rewrite lookup_insert.
      destruct (decide (_ = key)); [eauto | exact Hsome].
Qed.


End AddToCartFacts.

Section CartPageFacts.

Import JsString JsStringExt Spaces CartPages ProductPage.

Context {Cart CartJson : Type}.
Variable json_id : CartJson -> JsonId.
Variable fetchProduct : Method -> string -> FetchResult CartJson.
Variable fetchCartPage : string -> FetchResult Cart.
Variable API_URL : string.

(** The cart page shows the cart that add-to-cart returned: with the
    tenant cookie unchanged, [fetchCart] requests the cart with exactly
    that id, shows its body when the answer is OK, and forgets the id when
    the backend rejects it. *)
Theorem fetchCart_after_getOrCreateCart (b : Browser) (cartId : string)
    (st : @CartPageState Cart) :
  snd (getOrCreateCart json_id fetchProduct API_URL b) = Some cartId ->
  truthy cartId = true ->
  let after := fst (getOrCreateCart json_id fetchProduct API_URL b) in
  let answer := fetchCartPage (API_URL +:+ "/cart/" +:+ cartId) in
  fetchCart fetchCartPage API_URL after st
  = (match answer with
     | HttpResponse false _ =>
         removeItem (getCartKey (Some (getSpaceIdFromCookie (document b)))) after
     | _ => after
     end,
     {| cart := match answer with
                | HttpResponse true (Some data) => Some data
                | _ => None
                end;
        loading := false |}).
Proof.
  intros Hid Htruthy after answer.
  pose proof (getOrCreateCart_getItem json_id fetchProduct API_URL b cartId Hid)
    as Hstored.
  pose proof (getOrCreateCart_document json_id fetchProduct API_URL b) as Hdoc.
  fold after in Hstored, Hdoc.
  unfold fetchCart. rewrite Hdoc, Hstored, Htruthy. fold answer.
  destruct answer as [|[] [data|]]; reflexivity.
Qed.

(** [fetchCart] changes the storage only when a stored, non-empty cart id
    was rejected by the backend; a missing id, a network failure or an
    unreadable body leave the storage as it is. *)
Theorem fetchCart_storage_changed (b : Browser) (st : @CartPageState Cart) :
  localStorage (fst (fetchCart fetchCartPage API_URL b st)) <> localStorage b ->
  exists (cartId : string) (json : option Cart),
    getItem (getCartKey (Some (getSpaceIdFromCookie (document b)))) b
      = Some cartId
    /\ truthy cartId = true
    /\ fetchCartPage (API_URL +:+ "/cart/" +:+ cartId) = HttpResponse false json.
Proof.
  unfold fetchCart.
  destruct (getItem _ b) as [cartId|] eqn:Hitem;
    [|intros H; exfalso; apply H; reflexivity].
  destruct (truthy cartId) eqn:Htruthy;
    [|intros H; exfalso; apply H; reflexivity].
  destruct (fetchCartPage _) as [|[] [data|]] eqn:Hfetch; intros H;
    try (exfalso; apply H; reflexivity); eauto.
Qed.

End CartPageFacts.

Lemma getOrCreateCart_stored_witness :
  let b := {| CartPages.document :=
                Some {| Spaces.document_cookie := "space_id=acme" |};
              CartPages.localStorage := {[ "cart_id_acme" := "cart-1" ]} |} in
  let fetch := fun (m : ProductPage.Method) (_ : string) =>
                 match m with
                 | ProductPage.GET => HttpResponse false None
                 | ProductPage.POST => HttpResponse true (Some "cart-9")
                 end in
  CartPages.getItem "cart_id_acme"
    (fst (ProductPage.getOrCreateCart ProductPage.IdString fetch "" b))
  = Some "cart-9".
Proof.
  intros b fetch.
  exact (getOrCreateCart_stored ProductPage.IdString fetch "" b "cart-9"
           eq_refl).
Defined.

Lemma getOrCreateCart_frame_witness :
  let b := {| CartPages.document :=
                Some {| Spaces.document_cookie := "space_id=acme" |};
              CartPages.localStorage := {[ "cart_id" := "cart-1" ]} |} in
  let fetch := fun (_ : ProductPage.Method) (_ : string) =>
                 HttpResponse true (Some "cart-9") in
  CartPages.localStorage
    (fst (ProductPage.getOrCreateCart ProductPage.IdString fetch "" b))
    !! "cart_id"
  = Some "cart-1".
Proof.
  intros b fetch.
  rewrite (proj1 (proj2 (getOrCreateCart_frame
                           ProductPage.IdString fetch "" b))
             "cart_id" ltac:(vm_compute; discriminate)).
  reflexivity.
Defined.

Lemma fetchCart_after_getOrCreateCart_witness :
  let b := {| CartPages.document :=
                Some {| Spaces.document_cookie := "space_id=acme" |};
              CartPages.localStorage := ∅ |} in
  let fetchProduct := fun (_ : ProductPage.Method) (_ : string) =>
                        HttpResponse true (Some "cart-9") in
  let fetchCartPage := fun url : string =>
                         if String.eqb url "/api/cart/cart-9"
                         then HttpResponse true (Some 3)
                         else HttpResponse false None in
  snd (CartPages.fetchCart fetchCartPage "/api"
         (fst (ProductPage.getOrCreateCart ProductPage.IdString
                 fetchProduct "/api" b))
         {| CartPages.cart := None; CartPages.loading := true |})
  = {| CartPages.cart := Some 3; CartPages.loading := false |}.
Proof.
  intros b fetchProduct fetchCartPage.
  rewrite (fetchCart_after_getOrCreateCart
             ProductPage.IdString fetchProduct fetchCartPage "/api"
             b "cart-9" _ eq_refl eq_refl).
  reflexivity.
Defined.

Lemma fetchCart_storage_changed_witness :
  let b := {| CartPages.document :=
                Some {| Spaces.document_cookie := "space_id=acme" |};
              CartPages.localStorage := {[ "cart_id_acme" := "cart-1" ]} |} in
  exists (cartId : string) (json : option nat),
    CartPages.getItem "cart_id_acme" b = Some cartId
    /\ JsString.truthy cartId = true.
Proof.
  intros b.
  destruct (fetchCart_storage_changed
              (fun _ : string => @HttpResponse nat false None) "/api" b
              {| CartPages.cart := None; CartPages.loading := true |})
    as (cartId & json & Hitem & Htruthy & _).
  - intros H.
    apply (f_equal (fun m : gmap string string => m !! "cart_id_acme")) in H.
    vm_compute in H. discriminate H.
  - exists cartId, json. split; [exact Hitem | exact Htruthy].
Defined.


(** ** The product page: mock-up type and quantity *)

Section ProductPageFacts.

Import JsString JsStringExt ProductPage.

(** The mock-up type chosen for a product is always one of the types of
    the switcher, and choosing again from a chosen type changes nothing. *)
Theorem getMockupType_in_MOCKUP_TYPES (productType : string) :
  In (getMockupType productType) (List.map mockup_type MOCKUP_TYPES)
  /\ getMockupType (getMockupType productType) = getMockupType productType.
Proof.
  unfold getMockupType at 1 3 4.
  destruct (includes "shirt" productType), (includes "tee" productType),
    (includes "hoodie" productType), (includes "sticker" productType),
    (includes "print" productType);
    cbn [orb]; (split; [cbn; tauto | reflexivity]).
Qed.

Lemma clickQuantity_ge_1 (quantity : Z) (click : QuantityClick) :
  (1 <= quantity)%Z -> (1 <= clickQuantity quantity click)%Z.
Proof.
  destruct click; unfold clickQuantity, decrementQuantity, incrementQuantity; lia.
Qed.

Lemma quantity_fold_ge_1 (clicks : list QuantityClick) (quantity : Z) :
  (1 <= quantity)%Z -> (1 <= fold_left clickQuantity clicks quantity)%Z.
Proof.
  revert quantity. induction clicks as [|click clicks IH]; intros quantity H.
  - exact H.
  - cbn [fold_left]. apply IH, clickQuantity_ge_1, H.
Qed.

(** Whatever the buttons pressed, the quantity sent with add-to-cart is
    at least 1. *)
Theorem quantity_at_least_1 (clicks : list QuantityClick) :
  (1 <= quantityAfter clicks)%Z.
Proof. apply quantity_fold_ge_1. unfold initialQuantity. lia. Qed.

End ProductPageFacts.


(** ** The tags of a generation request *)

Section TagFacts.

Import JsString JsStringExt Spaces DesignPage.

Lemma split_pieces_no_sep (sep : ascii) (s : string) :
  Forall (fun piece => includesChar sep piece = false) (split sep s).
Proof.
  induction s as [|c s IH]; [repeat constructor|].
  cbn [split]. destruct (Ascii.eqb c sep) eqn:Hc.
  - constructor; [reflexivity | exact IH].
  - destruct (split sep s) as [|piece pieces].
    + repeat constructor. cbn [includesChar].
      rewrite Ascii.eqb_sym, Hc. reflexivity.
    + inversion IH as [|? ? Hpiece Hpieces]; subst.
      constructor; [|exact Hpieces].
      cbn [includesChar]. rewrite Ascii.eqb_sym, Hc, Hpiece. reflexivity.
Qed.

Lemma split_whole (sep : ascii) (s : string) :
  includesChar sep s = false -> split sep s = [s].
Proof.
  induction s as [|c s IH]; [reflexivity|].
  cbn [includesChar split]. intros H. apply orb_false_elim in H as [Hc Hs].
  rewrite Ascii.eqb_sym, Hc, (IH Hs). reflexivity.
Qed.

Lemma split_app (sep : ascii) (a b : string) :
  includesChar sep a = false ->
  split sep (a +:+ String sep b) = a :: split sep b.
Proof.
  induction a as [|c a IH]; intros H.
  - cbn [String.append split]. rewrite Ascii.eqb_refl. reflexivity.
  - cbn [includesChar] in H. apply orb_false_elim in H as [Hc Ha].
    cbn [String.append split]. rewrite Ascii.eqb_sym, Hc, (IH Ha). reflexivity.
Qed.

Lemma skipWhiteSpace_includesChar (c : ascii) (s : string) :
  includesChar c s = false -> includesChar c (skipWhiteSpace s) = false.
Proof.
  induction s as [|d s IH]; [reflexivity|].
  intros H. cbn [skipWhiteSpace]. destruct (isWhiteSpace d); [|exact H].
  cbn [includesChar] in H. apply orb_false_elim in H as [_ Hs]. exact (IH Hs).
Qed.

Lemma trimEnd_includesChar (c : ascii) (s : string) :
  includesChar c s = false -> includesChar c (trimEnd s) = false.
Proof.
  induction s as [|d s IH]; [reflexivity|].
  cbn [includesChar trimEnd]. intros H. apply orb_false_elim in H as [Hd Hs].
  specialize (IH Hs). destruct (trimEnd s) as [|e rest].
  - destruct (isWhiteSpace d); [reflexivity|].
    cbn [includesChar]. rewrite Hd. reflexivity.
  - cbn [includesChar] in IH |- *. rewrite Hd. exact IH.
Qed.

Lemma trimEnd_idem (s : string) : trimEnd (trimEnd s) = trimEnd s.
Proof.
  induction s as [|d s IH]; [reflexivity|].
  cbn [trimEnd]. destruct (trimEnd s) as [|e rest] eqn:E.
  - destruct (isWhiteSpace d) eqn:Hd; [reflexivity|].
    cbn [trimEnd]. rewrite Hd. reflexivity.
  - cbn [trimEnd] in IH |- *. rewrite IH. reflexivity.
Qed.

(** What is left after skipping white space does not begin with any. *)
Lemma skipWhiteSpace_idem (s : string) :
  skipWhiteSpace (skipWhiteSpace s) = skipWhiteSpace s.
Proof.
  induction s as [|d s IH]; [reflexivity|].
  cbn [skipWhiteSpace]. destruct (isWhiteSpace d) eqn:Hd; [exact IH|].
  cbn [skipWhiteSpace]. rewrite Hd. reflexivity.
Qed.

Lemma skipWhiteSpace_trimEnd (s : string) :
  skipWhiteSpace s = s -> skipWhiteSpace (trimEnd s) = trimEnd s.
Proof.
  destruct s as [|d s]; [reflexivity|].
  cbn [skipWhiteSpace]. destruct (isWhiteSpace d) eqn:Hd.
  - intros H. exfalso.
    assert (Hlen : String.length (skipWhiteSpace s) <= String.length s).
    { clear. induction s as [|e s IH]; cbn [skipWhiteSpace]; [lia|].
      destruct (isWhiteSpace e); cbn [String.length] in *; lia. }
    rewrite H in Hlen. cbn [String.length] in Hlen. lia.
  - intros _. cbn [trimEnd]. destruct (trimEnd s) as [|e rest].
    + rewrite Hd. cbn [skipWhiteSpace]. rewrite Hd. reflexivity.
    + cbn [skipWhiteSpace]. rewrite Hd. reflexivity.
Qed.

Lemma trim_idem (s : string) : trim (trim s) = trim s.
Proof.
  unfold trim.
  rewrite (skipWhiteSpace_trimEnd _ (skipWhiteSpace_idem s)).
  apply trimEnd_idem.
Qed.

(** Every tag sent with a generation request is non-empty, holds no
    comma, and has no white space at its ends, whatever was typed. *)
Theorem parseTags_wellformed (tags : string) :
  Forall tagOk (parseTags tags).
Proof.
  unfold parseTags. apply List.Forall_forall. intros tag Hin.
  apply List.filter_In in Hin as [Hin Htruthy].
  apply List.in_map_iff in Hin as (piece & <- & Hpiece).
  pose proof (split_pieces_no_sep "," tags) as Hsep.
  rewrite List.Forall_forall in Hsep. specialize (Hsep piece Hpiece).
  split; [apply truthy_true, Htruthy|]. split.
  - unfold trim. apply trimEnd_includesChar, skipWhiteSpace_includesChar, Hsep.
  - apply trim_idem.
Qed.

Lemma join_cons (sep x y : string) (rest : list string) :
  join sep (x :: y :: rest) = x +:+ sep +:+ join sep (y :: rest).
Proof. reflexivity. Qed.

Lemma trim_tagOk_space (tag : string) :
  tagOk tag -> trim (String " " tag) = tag /\ truthy tag = true.
Proof.
  intros (Hne & _ & Htrim). split; [exact Htrim | apply truthy_true, Hne].
Qed.

Lemma parseTags_join_aux (tags : list string) (tag : string) (pre : string) :
  Forall tagOk (tag :: tags) ->
  pre = "" \/ pre = " " ->
  List.filter truthy
    (List.map trim (split "," (pre +:+ join ", " (tag :: tags))))
  = tag :: tags.
Proof.
  revert tag pre. induction tags as [|next tags IH]; intros tag pre Hok Hpre.
  - inversion Hok as [|? ? Htag _]; subst.
    destruct (trim_tagOk_space tag Htag) as [Hspace Htruthy].
    destruct Htag as (_ & Hcomma & Htrim).
    cbn [join]. rewrite split_whole.
    + cbn [List.map List.filter].
      destruct Hpre as [-> | ->];
        [change ("" +:+ tag) with tag; rewrite Htrim
        |change (" " +:+ tag) with (String " " tag); rewrite Hspace];
        rewrite Htruthy; reflexivity.
    + rewrite includesChar_app, Hcomma.
      destruct Hpre as [-> | ->]; reflexivity.
  - inversion Hok as [|? ? Htag Hrest]; subst.
    destruct (trim_tagOk_space tag Htag) as [Hspace Htruthy].
    destruct Htag as (_ & Hcomma & Htrim).
    rewrite join_cons.
    change (", " +:+ ?x) with (String "," (" " +:+ x)).
    rewrite <- app_assoc. rewrite split_app.
    + cbn [List.map List.filter]. rewrite (IH next " " Hrest (or_intror eq_refl)).
      destruct Hpre as [-> | ->];
        [change ("" +:+ tag) with tag; rewrite Htrim
        |change (" " +:+ tag) with (String " " tag); rewrite Hspace];
        rewrite Htruthy; reflexivity.
    + rewrite includesChar_app, Hcomma.
      destruct Hpre as [-> | ->]; reflexivity.
Qed.

(** Typing well-formed tags separated by a comma and a space gives back
    exactly these tags, in order. *)
Theorem parseTags_join (tags : list string) :
  Forall tagOk tags -> parseTags (join ", " tags) = tags.
Proof.
  intros Hok. destruct tags as [|tag tags]; [reflexivity|].
  exact (parseTags_join_aux tags tag "" Hok (or_introl eq_refl)).
Qed.

Lemma parseTags_join_witness :
  parseTags (join ", " ["commons"; "spatial web"]) = ["commons"; "spatial web"].
Proof.
  apply (parseTags_join ["commons"; "spatial web"]).
  repeat constructor; discriminate.
Defined.

End TagFacts.


(** ** The design name proposed for an uploaded file *)

Section UploadFacts.

Import JsString UploadPage.

Lemma stripExtension_no_dot (name : string) :
  includesChar "." name = false -> stripExtension name = name.
Proof.
  induction name as [|c name IH]; [reflexivity|].
  cbn [includesChar stripExtension]. intros H.
  apply orb_false_elim in H as [Hc Hname].
  rewrite Ascii.eqb_sym, Hc, (IH Hname). reflexivity.
Qed.

Lemma stripExtension_ext (stem ext : string) :
  ext <> "" -> includesChar "." ext = false ->
  stripExtension (stem +:+ String "." ext) = stem.
Proof.
  intros Hne Hdot. apply truthy_true in Hne.
  induction stem as [|c stem IH].
  - cbn [String.append stripExtension]. rewrite Ascii.eqb_refl, Hne, Hdot.
    reflexivity.
  - cbn [String.append stripExtension].
    rewrite includesChar_app. cbn [includesChar]. rewrite Ascii.eqb_refl.
    rewrite orb_true_r, andb_false_r, IH. reflexivity.
Qed.

Lemma dashesToSpaces_clean (s : string) :
  includesChar "-" (dashesToSpaces s) = false
  /\ includesChar "_" (dashesToSpaces s) = false.
Proof.
  induction s as [|c s [IH1 IH2]]; [split; reflexivity|].
  cbn [dashesToSpaces includesChar]. rewrite IH1, IH2.
  destruct (Ascii.eqb_spec c "-") as [->|H1]; [split; reflexivity|].
  destruct (Ascii.eqb_spec c "_") as [->|H2]; [split; reflexivity|].
  cbn [orb]. apply not_eq_sym, Ascii.eqb_neq in H1, H2.
  rewrite H1, H2. split; reflexivity.
Qed.

(** The proposed design name drops the last extension of the file name
    (and only that one), keeps a name without extension whole, and turns
    every [-] and [_] into a space. *)
Theorem baseNameOf_extension (stem ext : string) :
  ext <> "" -> includesChar "." ext = false ->
  baseNameOf (stem +:+ String "." ext) = dashesToSpaces stem
  /\ baseNameOf ext = dashesToSpaces ext
  /\ includesChar "-" (baseNameOf (stem +:+ String "." ext)) = false
  /\ includesChar "_" (baseNameOf (stem +:+ String "." ext)) = false.
Proof.
  intros Hne Hdot. unfold baseNameOf.
  rewrite (stripExtension_ext stem ext Hne Hdot), (stripExtension_no_dot ext Hdot).
  split; [reflexivity|]. split; [reflexivity|]. apply dashesToSpaces_clean.
Qed.

Lemma baseNameOf_extension_witness :
  baseNameOf "commons-logo_v2.final.png" = "commons logo v2.final".
Proof.
  apply (proj1 (baseNameOf_extension "commons-logo_v2.final" "png"
                  ltac:(discriminate) eq_refl)).
Defined.

End UploadFacts.



(** ** From the host name to the cart key and the catalog URL *)

Section EndToEndFacts.

Import JsString JsStringExt Middleware Spaces DocumentCookie Products Layout.

Lemma urlSafe_allChars (s : string) :
  urlSafe s = allChars (fun c => urlencodedSafe (N_of_ascii c)) s.
Proof. induction s as [|c s IH]; [reflexivity|]. cbn. rewrite IH. reflexivity. Qed.

Lemma urlSafe_toLowerChar (c : ascii) :
  urlencodedSafe (N_of_ascii c) = true ->
  urlencodedSafe (N_of_ascii (toLowerChar c)) = true.
Proof.
  destruct c as [[] [] [] [] [] [] [] []]; vm_compute;
    intros H; first [reflexivity | discriminate H].
Qed.

Lemma urlSafe_toLowerCase (s : string) :
  urlSafe s = true -> urlSafe (toLowerCase s) = true.
Proof.
  induction s as [|c s IH]; [reflexivity|].
  cbn [urlSafe toLowerCase]. intros H. apply andb_true_iff in H as [Hc Hs].
  rewrite (urlSafe_toLowerChar c Hc), (IH Hs). reflexivity.
Qed.

(** A storefront reached as [label.rswag.online], with or without port
    and in any letter case, where [label] is a single label of letters,
    digits, [-], [_] and [*] other than the default token: the marker
    cookie holds the label in lower case; a page whose [document.cookie]
    lists that cookie stores its cart under [cart_id_] followed by the
    label; and the catalog request made with that cookie carries
    [?space=] followed by the label. *)
Theorem subdomain_end_to_end
    (label port API_URL : string) (query : URLSearchParams) :
  urlSafe label = true ->
  includesChar "." label = false ->
  label <> "" ->
  toLowerCase label <> "default" ->
  let host := (label +:+ ".rswag.online") +:+ String ":" port in
  let spaceId := toLowerCase label in
  resolvedSpaceId {| headers_host := Some host; url_searchParams := query |}
    = Normal (Some spaceId)
  /\ getCartKey
       (Some (getSpaceIdFromCookie
                (Some {| document_cookie :=
                           cookieString [("space_id", spaceId)] |})))
     = "cart_id_" +:+ spaceId
  /\ getProducts_url API_URL (serverSpaceId {[ "space_id" := spaceId ]})
     = API_URL +:+ "/products?space=" +:+ spaceId
  /\ (forall (Product : Type) (fetch : string -> FetchResult (list Product)),
        getProducts fetch API_URL (serverSpaceId {[ "space_id" := spaceId ]})
        = productsOf (fetch (API_URL +:+ "/products?space=" +:+ spaceId))).
Proof.
  intros Hsafe Hdot Hne Hdefault host spaceId.
  assert (Hlsafe : urlSafe spaceId = true) by exact (urlSafe_toLowerCase _ Hsafe).
  assert (Hlne : spaceId <> "").
  { subst spaceId. destruct label; [congruence | discriminate]. }
  assert (Hcolon : includesChar ":" label = false).
  { rewrite urlSafe_allChars in Hsafe.
    exact (allChars_excludes _ ":" _ Hsafe eq_refl). }
  assert (Hsemi : includesChar ";" spaceId = false).
  { rewrite urlSafe_allChars in Hlsafe.
    exact (allChars_excludes _ ";" _ Hlsafe eq_refl). }
  split; [exact (proj2 (middleware_label_host label port query Hcolon Hdot))|].
  split.
  - unfold getSpaceIdFromCookie. cbn [document_cookie].
    rewrite matchSpaceId_cookieString.
    + cbn [firstCookie String.eqb Ascii.eqb Bool.eqb].
      apply getCartKey_scoped; assumption.
    + repeat constructor. unfold cookiePairOk. rewrite Hsemi. reflexivity.
  - assert (Hurl : getProducts_url API_URL
                      (serverSpaceId {[ "space_id" := spaceId ]})
                    = API_URL +:+ "/products?space=" +:+ spaceId).
    { unfold serverSpaceId. rewrite lookup_singleton_eq. unfold or_else.
      rewrite (proj2 (truthy_true spaceId) Hlne).
      rewrite getProducts_url_scoped by assumption.
      rewrite (urlencode_safe _ Hlsafe). reflexivity. }
    split; [exact Hurl|].
    intros Product fetch. rewrite getProducts_fetch, Hurl. reflexivity.
Qed.

Lemma subdomain_end_to_end_witness :
  resolvedSpaceId {| headers_host := Some "Acme.rswag.online:443";
                     url_searchParams := [] |}
    = Normal (Some "acme")
  /\ getCartKey
       (Some (getSpaceIdFromCookie
                (Some {| document_cookie := cookieString [("space_id", "acme")] |})))
     = "cart_id_acme"
  /\ getProducts_url "/api" (serverSpaceId {[ "space_id" := "acme" ]})
     = "/api/products?space=acme"
  /\ (forall (Product : Type) (fetch : string -> FetchResult (list Product)),
        getProducts fetch "/api" (serverSpaceId {[ "space_id" := "acme" ]})
        = productsOf (fetch "/api/products?space=acme")).
Proof.
  apply (subdomain_end_to_end "Acme" "443" "/api" []);
    first [reflexivity | discriminate].
Defined.

End EndToEndFacts.
